(** * igl-nanovg: the OpenGL shader bodies and the demo session

    A shallow embedding of [src/shader_opengl.h] (the GLSL vertex body and the
    two fragment bodies) and of [NanovgSession::loadDemoData], [update] and
    [drawNanovg] from [example/NanovgSession.cpp].

    GLSL [float] is kept abstract: the shaders are written once over any type
    [F] that carries the GLSL scalar operations (class [GLFloat]).  Statements
    that only depend on the control flow of the code are proved for every
    such [F].  The IEEE single precision model ([GLFloat_binary32], built on
    [SpecFloat]) is what the code computes with; it evaluates the code on
    concrete inputs and shows where overflow, rounding and NaN make a
    statement fail.  The real numbers ([GLFloat_R]) are the idealization
    without rounding, overflow or NaN; a statement proved over them says
    that it holds in exact arithmetic. *)

From Stdlib Require Import ZArith List Bool Reals Lra.
From Stdlib Require Import SpecFloat.
From Stdlib Require Import Lia String Ascii DecimalString.
Import ListNotations.

(** ** The scalar type of the shading language *)

Class GLFloat (F : Type) : Type := {
  fofZ  : Z -> F;            (* an integer literal or an int converted to float *)
  fhalf : F;                 (* the literal 0.5 *)
  fadd  : F -> F -> F;
  fsub  : F -> F -> F;
  fmul  : F -> F -> F;
  fdiv  : F -> F -> F;
  fabs  : F -> F;
  fsqrt : F -> F;
  feqb  : F -> F -> bool;    (* == *)
  fltb  : F -> F -> bool     (* <  *)
}.

Declare Scope glsl_scope.
Delimit Scope glsl_scope with glsl.
Infix "+" := fadd : glsl_scope.
Infix "-" := fsub : glsl_scope.
Infix "*" := fmul : glsl_scope.
Infix "/" := fdiv : glsl_scope.
Infix "==" := feqb (at level 70, no associativity) : glsl_scope.
Infix "<?" := fltb : glsl_scope.

(** ** Vectors, matrices and the built-in functions the shaders call *)

Section Builtins.
Context {F : Type} `{GLFloat F}.
Local Open Scope glsl_scope.

Record vec2 : Type := Vec2 { x2 : F; y2 : F }.
Record vec3 : Type := Vec3 { x3 : F; y3 : F; z3 : F }.
Record vec4 : Type := Vec4 { x4 : F; y4 : F; z4 : F; w4 : F }.

(* matrices are column major: [m3c0] is the first column *)
Record mat3 : Type := Mat3 { m3c0 : vec3; m3c1 : vec3; m3c2 : vec3 }.
Record mat4 : Type := Mat4 { m4c0 : vec4; m4c1 : vec4; m4c2 : vec4; m4c3 : vec4 }.

(* constructors: vec2(s), vec4(s), vec3(v2, s), vec4(v3, s) *)
Definition vec2_splat (s : F) : vec2 := Vec2 s s.
Definition vec4_splat (s : F) : vec4 := Vec4 s s s s.
Definition vec3_of (v : vec2) (s : F) : vec3 := Vec3 (x2 v) (y2 v) s.
Definition vec4_of (v : vec3) (s : F) : vec4 := Vec4 (x3 v) (y3 v) (z3 v) s.

(* swizzles *)
Definition xy (v : vec3) : vec2 := Vec2 (x3 v) (y3 v).
Definition xyz (v : vec4) : vec3 := Vec3 (x4 v) (y4 v) (z4 v).

(* scalar built-ins, as the GLSL specification defines them *)
Definition min (a b : F) : F := if b <? a then b else a.
Definition max (a b : F) : F := if a <? b then b else a.
Definition clamp (a lo hi : F) : F := min (max a lo) hi.
Definition mix (a b t : F) : F := a * (fofZ 1 - t) + b * t.

(* component-wise lifts *)
Definition abs2 (v : vec2) : vec2 := Vec2 (fabs (x2 v)) (fabs (y2 v)).
Definition sub2 (a b : vec2) : vec2 := Vec2 (x2 a - x2 b) (y2 a - y2 b).
Definition mul2 (a b : vec2) : vec2 := Vec2 (x2 a * x2 b) (y2 a * y2 b).
Definition div2 (a b : vec2) : vec2 := Vec2 (x2 a / x2 b) (y2 a / y2 b).
Definition max2s (v : vec2) (s : F) : vec2 := Vec2 (max (x2 v) s) (max (y2 v) s).
Definition clamp2 (v : vec2) (lo hi : F) : vec2 :=
  Vec2 (clamp (x2 v) lo hi) (clamp (y2 v) lo hi).
Definition length2 (v : vec2) : F := fsqrt (x2 v * x2 v + y2 v * y2 v).

Definition scale3 (v : vec3) (s : F) : vec3 := Vec3 (x3 v * s) (y3 v * s) (z3 v * s).

Definition scale4 (v : vec4) (s : F) : vec4 :=
  Vec4 (x4 v * s) (y4 v * s) (z4 v * s) (w4 v * s).
Definition mul4 (a b : vec4) : vec4 :=
  Vec4 (x4 a * x4 b) (y4 a * y4 b) (z4 a * z4 b) (w4 a * w4 b).
Definition mix4 (a b : vec4) (t : F) : vec4 :=
  Vec4 (mix (x4 a) (x4 b) t) (mix (y4 a) (y4 b) t)
       (mix (z4 a) (z4 b) t) (mix (w4 a) (w4 b) t).

(* matrix times column vector: the linear combination of the columns *)
Definition mat3_mul (m : mat3) (v : vec3) : vec3 :=
  Vec3 (x3 (m3c0 m) * x3 v + x3 (m3c1 m) * y3 v + x3 (m3c2 m) * z3 v)
       (y3 (m3c0 m) * x3 v + y3 (m3c1 m) * y3 v + y3 (m3c2 m) * z3 v)
       (z3 (m3c0 m) * x3 v + z3 (m3c1 m) * y3 v + z3 (m3c2 m) * z3 v).

Definition mat4_mul (m : mat4) (v : vec4) : vec4 :=
  Vec4 (x4 (m4c0 m) * x4 v + x4 (m4c1 m) * y4 v + x4 (m4c2 m) * z4 v + x4 (m4c3 m) * w4 v)
       (y4 (m4c0 m) * x4 v + y4 (m4c1 m) * y4 v + y4 (m4c2 m) * z4 v + y4 (m4c3 m) * w4 v)
       (z4 (m4c0 m) * x4 v + z4 (m4c1 m) * y4 v + z4 (m4c2 m) * z4 v + z4 (m4c3 m) * w4 v)
       (w4 (m4c0 m) * x4 v + w4 (m4c1 m) * y4 v + w4 (m4c2 m) * z4 v + w4 (m4c3 m) * w4 v).

(* a bound texture: what [texture(textureUnit, coord)] returns *)
Definition sampler2D : Type := vec2 -> vec4.

(** The two uniform blocks, with the fields in the order the headers
    declare them. *)
Record VertexUniformBlock : Type := {
  matrix : mat4;
  viewSize : vec2
}.

Record FragmentUniformBlock : Type := {
  scissorMat : mat3;
  paintMat : mat3;
  innerCol : vec4;
  outerCol : vec4;
  scissorExt : vec2;
  scissorScale : vec2;
  extent : vec2;
  radius : F;
  feather : F;
  strokeMult : F;
  strokeThr : F;
  texType : Z;
  type : Z
}.
End Builtins.

Arguments vec2 F : clear implicits.
Arguments vec3 F : clear implicits.
Arguments vec4 F : clear implicits.
Arguments mat3 F : clear implicits.
Arguments mat4 F : clear implicits.
Arguments sampler2D F : clear implicits.
Arguments VertexUniformBlock F : clear implicits.
Arguments FragmentUniformBlock F : clear implicits.

(** ** [openglVertexShaderBody] *)

Module VertexShader.
Section Body.
Context {F : Type} `{GLFloat F}.
Local Open Scope glsl_scope.

Record Outputs : Type := {
  fpos : vec2 F;
  ftcoord : vec2 F;
  gl_Position : vec4 F
}.

Definition main (uniforms : VertexUniformBlock F) (pos tcoord : vec2 F) : Outputs :=
  let ftcoord' := tcoord in
  let fpos' := pos in
  let gl_Position' :=
    Vec4 (fofZ 2 * x2 pos / x2 (viewSize uniforms) - fofZ 1)
         (fofZ 1 - fofZ 2 * y2 pos / y2 (viewSize uniforms))
         (fofZ 0) (fofZ 1) in
  let gl_Position'' := mat4_mul (matrix uniforms) gl_Position' in
  {| fpos := fpos'; ftcoord := ftcoord'; gl_Position := gl_Position'' |}.
End Body.
Arguments Outputs F : clear implicits.
End VertexShader.

(** ** [openglNoAntiAliasingFragmentShaderBody] *)

Module NoAntiAliasing.
Section Body.
Context {F : Type} `{GLFloat F}.
Local Open Scope glsl_scope.
Variable uniforms : FragmentUniformBlock F.
Variable textureUnit : sampler2D F.

Definition scissorMask (p : vec2 F) : F :=
  let sc := mul2 (sub2 (abs2 (xy (mat3_mul (scissorMat uniforms) (vec3_of p (fofZ 1)))))
                       (scissorExt uniforms))
                 (scissorScale uniforms) in
  let sc := clamp2 (sub2 (vec2_splat fhalf) sc) (fofZ 0) (fofZ 1) in
  x2 sc * y2 sc.

Definition sdroundrect (pt : vec2 F) : F :=
  let ext2 := sub2 (extent uniforms) (vec2_splat (radius uniforms)) in
  let d := sub2 (abs2 pt) ext2 in
  min (max (x2 d) (y2 d)) (fofZ 0) + length2 (max2s d (fofZ 0)) - radius uniforms.

Definition strokeMask (ftcoord : vec2 F) : F :=
  min (fofZ 1) ((fofZ 1 - fabs (x2 ftcoord * fofZ 2 - fofZ 1)) * strokeMult uniforms)
  * min (fofZ 1) (y2 ftcoord).

Definition fragmentShaderNoAntiAliasing (fpos ftcoord : vec2 F) : vec4 F :=
  let scissor := scissorMask fpos in
  if scissor == fofZ 0 then vec4_splat (fofZ 0)
  else
    if (type uniforms =? 0)%Z then (* MNVG_SHADER_FILLGRAD *)
      let pt := xy (mat3_mul (paintMat uniforms) (vec3_of fpos (fofZ 1))) in
      let d := clamp ((feather uniforms * fhalf + sdroundrect pt) / feather uniforms)
                     (fofZ 0) (fofZ 1) in
      let color := mix4 (innerCol uniforms) (outerCol uniforms) d in
      scale4 color scissor
    else if (type uniforms =? 1)%Z then (* MNVG_SHADER_FILLIMG *)
      let pt := div2 (xy (mat3_mul (paintMat uniforms) (vec3_of fpos (fofZ 1))))
                     (extent uniforms) in
      let color := textureUnit pt in
      let color :=
        if (texType uniforms =? 1)%Z then vec4_of (scale3 (xyz color) (w4 color)) (w4 color)
        else if (texType uniforms =? 2)%Z then vec4_splat (x4 color)
        else color in
      let color := scale4 color scissor in
      mul4 color (innerCol uniforms)
    else (* MNVG_SHADER_IMG *)
      let color := textureUnit ftcoord in
      let color :=
        if (texType uniforms =? 1)%Z then vec4_of (scale3 (xyz color) (w4 color)) (w4 color)
        else if (texType uniforms =? 2)%Z then vec4_splat (x4 color)
        else color in
      let color := scale4 color scissor in
      mul4 color (innerCol uniforms).

(* [main] writes the result to [FragColor] *)
Definition main (fpos ftcoord : vec2 F) : vec4 F :=
  fragmentShaderNoAntiAliasing fpos ftcoord.
End Body.
End NoAntiAliasing.

(** ** [openglAntiAliasingFragmentShaderBody] *)

Module AntiAliasing.
Section Body.
Context {F : Type} `{GLFloat F}.
Local Open Scope glsl_scope.
Variable uniforms : FragmentUniformBlock F.
Variable textureUnit : sampler2D F.

Definition scissorMask (p : vec2 F) : F :=
  let sc := mul2 (sub2 (abs2 (xy (mat3_mul (scissorMat uniforms) (vec3_of p (fofZ 1)))))
                       (scissorExt uniforms))
                 (scissorScale uniforms) in
  let sc := clamp2 (sub2 (vec2_splat fhalf) sc) (fofZ 0) (fofZ 1) in
  x2 sc * y2 sc.

Definition sdroundrect (pt : vec2 F) : F :=
  let ext2 := sub2 (extent uniforms) (vec2_splat (radius uniforms)) in
  let d := sub2 (abs2 pt) ext2 in
  min (max (x2 d) (y2 d)) (fofZ 0) + length2 (max2s d (fofZ 0)) - radius uniforms.

Definition strokeMask (ftcoord : vec2 F) : F :=
  min (fofZ 1) ((fofZ 1 - fabs (x2 ftcoord * fofZ 2 - fofZ 1)) * strokeMult uniforms)
  * min (fofZ 1) (y2 ftcoord).

Definition fragmentShaderAntiAliasing (fpos ftcoord : vec2 F) : vec4 F :=
  let scissor := scissorMask fpos in
  if scissor == fofZ 0 then vec4_splat (fofZ 0)
  else
    if (type uniforms =? 2)%Z then (* MNVG_SHADER_IMG *)
      let color := textureUnit ftcoord in
      let color :=
        if (texType uniforms =? 1)%Z then vec4_of (scale3 (xyz color) (w4 color)) (w4 color)
        else if (texType uniforms =? 2)%Z then vec4_splat (x4 color)
        else color in
      let color := scale4 color scissor in
      mul4 color (innerCol uniforms)
    else
      let strokeAlpha := strokeMask ftcoord in
      if strokeAlpha <? strokeThr uniforms then vec4_splat (fofZ 0)
      else
        if (type uniforms =? 0)%Z then (* MNVG_SHADER_FILLGRAD *)
          let pt := xy (mat3_mul (paintMat uniforms) (vec3_of fpos (fofZ 1))) in
          let d := clamp ((feather uniforms * fhalf + sdroundrect pt) / feather uniforms)
                         (fofZ 0) (fofZ 1) in
          let color := mix4 (innerCol uniforms) (outerCol uniforms) d in
          let color := scale4 color scissor in
          let color := scale4 color strokeAlpha in
          color
        else (* MNVG_SHADER_FILLIMG *)
          let pt := div2 (xy (mat3_mul (paintMat uniforms) (vec3_of fpos (fofZ 1))))
                         (extent uniforms) in
          let color := textureUnit pt in
          let color :=
            if (texType uniforms =? 1)%Z then vec4_of (scale3 (xyz color) (w4 color)) (w4 color)
            else if (texType uniforms =? 2)%Z then vec4_splat (x4 color)
            else color in
          let color := scale4 color scissor in
          let color := scale4 color strokeAlpha in
          mul4 color (innerCol uniforms).

Definition main (fpos ftcoord : vec2 F) : vec4 F :=
  fragmentShaderAntiAliasing fpos ftcoord.
End Body.
End AntiAliasing.

(** ** [NanovgSession::drawNanovg]

    The session's effects are the calls it makes into NanoVG and the demo
    code; they are recorded in order.  The clock readings ([getSeconds],
    [getDeltaSeconds]) are inputs.  The pointer position is read from the
    mouse listener (the desktop build).  The frame counter [times_] and the
    pointer coordinates are 32-bit ints: the counter wraps around, and the
    ints handed to [renderDemo] and divided by 60.0f are converted to
    float. *)

Module NanovgSession.
Section Session.
Context {F : Type} `{GLFloat F}.
Local Open Scope glsl_scope.

Inductive Graph : Type := fps_ | cpuGraph_ | gpuGraph_.

Inductive Call : Type :=
| nvgBeginFrame (windowWidth windowHeight devicePixelRatio : F)
| SetRenderCommandEncoder
| renderDemo (mx my : F) (width height t : F) (blowup : Z)
| renderGraph (x y : F) (fg : Graph)
| nvgEndFrame
| updateGraph (fg : Graph) (frameTime : F).

Record State : Type := {
  times_ : Z;
  mouseX : Z;
  mouseY : Z
}.

(* the value of a 32-bit int after an operation whose exact result is z *)
Definition wrap32 (z : Z) : Z := ((z + 2 ^ 31) mod 2 ^ 32 - 2 ^ 31)%Z.

Record Clock : Type := {
  start : F;          (* getSeconds() before the frame *)
  finish : F;         (* getSeconds() after nvgEndFrame *)
  deltaSeconds : F    (* getDeltaSeconds() *)
}.

Definition drawNanovg (s : State) (clock : Clock)
    (framebuffferWidth framebufferHeight : F) : State * list Call :=
  let pxRatio := fofZ 2 in
  let width := framebuffferWidth / pxRatio in
  let height := framebufferHeight / pxRatio in
  let mx := mouseX s in
  let my := mouseY s in
  let times' := wrap32 (times_ s + 1) in
  ({| times_ := times'; mouseX := mouseX s; mouseY := mouseY s |},
   [ nvgBeginFrame width height pxRatio;
     SetRenderCommandEncoder;
     renderDemo (fofZ mx) (fofZ my) width height (fofZ times' / fofZ 60) 0;
     renderGraph (fofZ 5) (fofZ 5) fps_;
     renderGraph (fofZ (5 + 200 + 5)) (fofZ 5) cpuGraph_;
     renderGraph (fofZ (5 + 200 + 5 + 200 + 5)) (fofZ 5) gpuGraph_;
     nvgEndFrame;
     updateGraph fps_ (deltaSeconds clock);
     updateGraph cpuGraph_ (finish clock - start clock) ]).

(* the frames a call list opens, as (width, height, pixel ratio) *)
Fixpoint framesOpened (calls : list Call) : list (F * F * F) :=
  match calls with
  | [] => []
  | nvgBeginFrame w h r :: rest => (w, h, r) :: framesOpened rest
  | _ :: rest => framesOpened rest
  end.
End Session.
Arguments Call F : clear implicits.
Arguments Clock F : clear implicits.
End NanovgSession.

(** ** Two models of [float] *)

(** Exact arithmetic: the real numbers, an idealization of [float] with no
    rounding, no overflow and no NaN. *)
#[export] Instance GLFloat_R : GLFloat R := {|
  fofZ := IZR;
  fhalf := (1 / 2)%R;
  fadd := Rplus;
  fsub := Rminus;
  fmul := Rmult;
  fdiv := Rdiv;
  fabs := Rabs;
  fsqrt := sqrt;
  feqb := fun a b => if Req_dec_T a b then true else false;
  fltb := fun a b => if Rlt_dec a b then true else false
|}.

(** IEEE 754 single precision, round to nearest even. *)
Definition binary32 : Type := spec_float.

#[export] Instance GLFloat_binary32 : GLFloat binary32 := {|
  fofZ := fun z => binary_normalize 24 128 z 0 false;
  fhalf := binary_normalize 24 128 1 (-1) false;
  fadd := SFadd 24 128;
  fsub := SFsub 24 128;
  fmul := SFmul 24 128;
  fdiv := SFdiv 24 128;
  fabs := SFabs;
  fsqrt := SFsqrt 24 128;
  feqb := SFeqb;
  fltb := SFltb
|}.

(** ** The branch structure of the fragment bodies *)

Inductive PaintKind : Type :=
| FILLGRAD   (* gradient fill *)
| FILLIMG    (* image fill, sampled in paint space *)
| IMG.       (* image draw, sampled at the interpolated texture coordinate *)

Inductive TexChannel : Type :=
| RGBA            (* the sample is used as it is *)
| PREMULTIPLY     (* rgb is multiplied by alpha *)
| SINGLE_CHANNEL. (* the first channel fills all four *)

Section Texel.
Context {F : Type} `{GLFloat F}.
Local Open Scope glsl_scope.

Definition texel (m : TexChannel) (color : vec4 F) : vec4 F :=
  match m with
  | RGBA => color
  | PREMULTIPLY => vec4_of (scale3 (xyz color) (w4 color)) (w4 color)
  | SINGLE_CHANNEL => vec4_splat (x4 color)
  end.

(* replace the two selectors / the two stroke uniforms of a block *)
Definition with_selectors (u : FragmentUniformBlock F) (texType' type' : Z)
    : FragmentUniformBlock F :=
  {| scissorMat := scissorMat u; paintMat := paintMat u;
     innerCol := innerCol u; outerCol := outerCol u;
     scissorExt := scissorExt u; scissorScale := scissorScale u;
     extent := extent u; radius := radius u; feather := feather u;
     strokeMult := strokeMult u; strokeThr := strokeThr u;
     texType := texType'; type := type' |}.

Definition with_stroke (u : FragmentUniformBlock F) (strokeMult' strokeThr' : F)
    : FragmentUniformBlock F :=
  {| scissorMat := scissorMat u; paintMat := paintMat u;
     innerCol := innerCol u; outerCol := outerCol u;
     scissorExt := scissorExt u; scissorScale := scissorScale u;
     extent := extent u; radius := radius u; feather := feather u;
     strokeMult := strokeMult'; strokeThr := strokeThr';
     texType := texType u; type := type u |}.
End Texel.

(** Which branch each body takes for a value of [type], and which channel
    treatment for a value of [texType]: read off the [if]/[else if] chains. *)

Definition paintKindNoAA (type : Z) : PaintKind :=
  if (type =? 0)%Z then FILLGRAD
  else if (type =? 1)%Z then FILLIMG
  else IMG.

Definition paintKindAA (type : Z) : PaintKind :=
  if (type =? 2)%Z then IMG
  else if (type =? 0)%Z then FILLGRAD
  else FILLIMG.

Definition texChannelNoAA (texType : Z) : TexChannel :=
  if (texType =? 1)%Z then PREMULTIPLY
  else if (texType =? 2)%Z then SINGLE_CHANNEL
  else RGBA.

Definition texChannelAA (texType : Z) : TexChannel :=
  if (texType =? 1)%Z then PREMULTIPLY
  else if (texType =? 2)%Z then SINGLE_CHANNEL
  else RGBA.

(** The enumerations as the uniform block documents them. *)
Definition paintKindOfType (type : Z) : option PaintKind :=
  match type with
  | 0%Z => Some FILLGRAD
  | 1%Z => Some FILLIMG
  | 2%Z => Some IMG
  | _ => None
  end.

Definition texChannelOfTexType (texType : Z) : option TexChannel :=
  match texType with
  | 0%Z => Some RGBA
  | 1%Z => Some PREMULTIPLY
  | 2%Z => Some SINGLE_CHANNEL
  | _ => None
  end.

Section Branches.
Context {F : Type} `{GLFloat F}.
Local Open Scope glsl_scope.
Variable uniforms : FragmentUniformBlock F.
Variable textureUnit : sampler2D F.

(* the paint colour of a branch, before the scissor and stroke factors *)
Definition gradientColor (sd : F) : vec4 F :=
  let d := clamp ((feather uniforms * fhalf + sd) / feather uniforms) (fofZ 0) (fofZ 1) in
  mix4 (innerCol uniforms) (outerCol uniforms) d.

Definition paintSpacePoint (fpos : vec2 F) : vec2 F :=
  xy (mat3_mul (paintMat uniforms) (vec3_of fpos (fofZ 1))).

Definition branchNoAA (k : PaintKind) (m : TexChannel) (scissor : F)
    (fpos ftcoord : vec2 F) : vec4 F :=
  match k with
  | FILLGRAD =>
      scale4 (gradientColor (NoAntiAliasing.sdroundrect uniforms (paintSpacePoint fpos)))
             scissor
  | FILLIMG =>
      mul4 (scale4 (texel m (textureUnit (div2 (paintSpacePoint fpos) (extent uniforms))))
                   scissor)
           (innerCol uniforms)
  | IMG =>
      mul4 (scale4 (texel m (textureUnit ftcoord)) scissor) (innerCol uniforms)
  end.

Definition branchAA (k : PaintKind) (m : TexChannel) (scissor strokeAlpha : F)
    (fpos ftcoord : vec2 F) : vec4 F :=
  match k with
  | FILLGRAD =>
      scale4 (scale4 (gradientColor
                        (AntiAliasing.sdroundrect uniforms (paintSpacePoint fpos)))
                     scissor)
             strokeAlpha
  | FILLIMG =>
      mul4 (scale4 (scale4 (texel m (textureUnit (div2 (paintSpacePoint fpos)
                                                       (extent uniforms))))
                           scissor)
                   strokeAlpha)
           (innerCol uniforms)
  | IMG =>
      mul4 (scale4 (texel m (textureUnit ftcoord)) scissor) (innerCol uniforms)
  end.
End Branches.

(** ** What the texture branches compute *)

Section TextureBranches.
Context {F : Type} `{GLFloat F}.
Local Open Scope glsl_scope.

(** (r, g, b, a) becomes (r*a, g*a, b*a, a). *)
Definition premultiplied (c : vec4 F) : vec4 F :=
  Vec4 (x4 c * w4 c) (y4 c * w4 c) (z4 c * w4 c) (w4 c).

(** Every branch that samples the texture passes the sample through [g]
    before the scissor and stroke factors and the product with [innerCol]:
    the two image branches of the non-anti-aliased body, then the two of
    the anti-aliased body. *)
Definition textureBranchesApply (uniforms : FragmentUniformBlock F)
    (textureUnit : sampler2D F) (fpos ftcoord : vec2 F)
    (g : vec4 F -> vec4 F) : Prop :=
  let pt := div2 (xy (mat3_mul (paintMat uniforms) (vec3_of fpos (fofZ 1))))
                 (extent uniforms) in
  let scissorN := NoAntiAliasing.scissorMask uniforms fpos in
  let scissorA := AntiAliasing.scissorMask uniforms fpos in
  let strokeAlpha := AntiAliasing.strokeMask uniforms ftcoord in
  ((scissorN == fofZ 0) = false -> type uniforms = 1%Z ->
     NoAntiAliasing.fragmentShaderNoAntiAliasing uniforms textureUnit fpos ftcoord
     = mul4 (scale4 (g (textureUnit pt)) scissorN) (innerCol uniforms)) /\
  ((scissorN == fofZ 0) = false -> type uniforms <> 0%Z -> type uniforms <> 1%Z ->
     NoAntiAliasing.fragmentShaderNoAntiAliasing uniforms textureUnit fpos ftcoord
     = mul4 (scale4 (g (textureUnit ftcoord)) scissorN) (innerCol uniforms)) /\
  ((scissorA == fofZ 0) = false -> type uniforms = 2%Z ->
     AntiAliasing.fragmentShaderAntiAliasing uniforms textureUnit fpos ftcoord
     = mul4 (scale4 (g (textureUnit ftcoord)) scissorA) (innerCol uniforms)) /\
  ((scissorA == fofZ 0) = false -> type uniforms <> 2%Z -> type uniforms <> 0%Z ->
   (strokeAlpha <? strokeThr uniforms) = false ->
     AntiAliasing.fragmentShaderAntiAliasing uniforms textureUnit fpos ftcoord
     = mul4 (scale4 (scale4 (g (textureUnit pt)) scissorA) strokeAlpha)
            (innerCol uniforms)).
End TextureBranches.

(** In exact arithmetic a point whose scaled distance beyond the scissor
    extent reaches one half on either axis has mask zero. *)
Definition beyondScissor (uniforms : FragmentUniformBlock R) (p : vec2 R) : Prop :=
  let q := xy (mat3_mul (scissorMat uniforms) (vec3_of p 1%R)) in
  (1 / 2 <= (Rabs (x2 q) - x2 (scissorExt uniforms)) * x2 (scissorScale uniforms) \/
   1 / 2 <= (Rabs (y2 q) - y2 (scissorExt uniforms)) * y2 (scissorScale uniforms))%R.

(** ** Concrete data in single precision *)

Module Sample.
Local Open Scope Z_scope.

Definition b32 (z : Z) : binary32 := fofZ z.

Definition identity3 : mat3 binary32 :=
  Mat3 (Vec3 (b32 1) (b32 0) (b32 0))
       (Vec3 (b32 0) (b32 1) (b32 0))
       (Vec3 (b32 0) (b32 0) (b32 1)).

(* a scissor of half extent 50 around the origin, a paint box of half
   extent 20 with corner radius 10, a red to blue gradient, stroke
   threshold one half *)
Definition block (texType' type' : Z) : FragmentUniformBlock binary32 :=
  {| scissorMat := identity3; paintMat := identity3;
     innerCol := Vec4 (b32 1) (b32 0) (b32 0) (b32 1);
     outerCol := Vec4 (b32 0) (b32 0) (b32 1) (b32 1);
     scissorExt := Vec2 (b32 50) (b32 50);
     scissorScale := Vec2 (b32 1) (b32 1);
     extent := Vec2 (b32 20) (b32 20);
     radius := b32 10; feather := b32 2;
     strokeMult := b32 1; strokeThr := fhalf;
     texType := texType'; type := type' |}.

(* a texture that is white with alpha one half where y < 0.5 and opaque
   green elsewhere *)
Definition checker : sampler2D binary32 :=
  fun coord =>
    if (y2 coord <? fhalf)%glsl then Vec4 (b32 1) (b32 1) (b32 1) fhalf
    else Vec4 (b32 0) (b32 1) (b32 0) (b32 1).

Definition inside : vec2 binary32 := Vec2 (b32 2) (b32 3).      (* mask 1 *)
Definition outside : vec2 binary32 := Vec2 (b32 100) (b32 0).   (* mask 0 *)
Definition boundary : vec2 binary32 := Vec2 (b32 20) (b32 5).   (* sdroundrect 0 *)
Definition onEdge : vec2 binary32 := Vec2 (b32 0) (b32 0).      (* stroke coverage 0 *)
Definition midStroke : vec2 binary32 := Vec2 fhalf (b32 1).     (* stroke coverage 1 *)

(* x = 50.25: a quarter of a unit outside the scissor of [block] *)
Definition justOutside : vec2 binary32 :=
  Vec2 (binary_normalize 24 128 201 (-2) false) (b32 0).


Definition identity4 : mat4 binary32 :=
  Mat4 (Vec4 (b32 1) (b32 0) (b32 0) (b32 0)) (Vec4 (b32 0) (b32 1) (b32 0) (b32 0))
       (Vec4 (b32 0) (b32 0) (b32 1) (b32 0)) (Vec4 (b32 0) (b32 0) (b32 0) (b32 1)).

(* 2^127, the largest power of two: twice it overflows *)
Definition huge : binary32 := b32 (2 ^ 127).
Definition hugeViewport : VertexUniformBlock binary32 :=
  {| matrix := identity4; viewSize := Vec2 huge huge |}.
Definition viewport : VertexUniformBlock binary32 :=
  {| matrix := identity4; viewSize := Vec2 (b32 800) (b32 600) |}.

(* 2^-149, the smallest positive number: half of it rounds to 0 *)
Definition tiny : binary32 := S754_finite false 1 (-149).

Definition clock0 : NanovgSession.Clock binary32 :=
  {| NanovgSession.start := b32 0; NanovgSession.finish := b32 0;
     NanovgSession.deltaSeconds := b32 0 |}.
Definition session0 : NanovgSession.State :=
  {| NanovgSession.times_ := 0; NanovgSession.mouseX := 0; NanovgSession.mouseY := 0 |}.
End Sample.

(** ** The same data in exact arithmetic *)

Module ExactSample.
Local Open Scope R_scope.

Definition identity3 : mat3 R :=
  Mat3 (Vec3 1 0 0) (Vec3 0 1 0) (Vec3 0 0 1).

Definition identity4 : mat4 R :=
  Mat4 (Vec4 1 0 0 0) (Vec4 0 1 0 0) (Vec4 0 0 1 0) (Vec4 0 0 0 1).

(* the same block as [Sample.block 0 0], over the reals *)
Definition block : FragmentUniformBlock R :=
  {| scissorMat := identity3; paintMat := identity3;
     innerCol := Vec4 1 0 0 1; outerCol := Vec4 0 0 1 1;
     scissorExt := Vec2 50 50; scissorScale := Vec2 1 1;
     extent := Vec2 20 20; radius := 10; feather := 2;
     strokeMult := 1; strokeThr := 1 / 2;
     texType := 0; type := 0 |}.

Definition boundary : vec2 R := Vec2 20 5.
Definition black : sampler2D R := fun _ => Vec4 0 0 0 1.

(* an 800 x 600 viewport with no extra transform *)
Definition viewport : VertexUniformBlock R :=
  {| matrix := identity4; viewSize := Vec2 800 600 |}.
End ExactSample.

(** ** Regions and ranges used to state the fragment properties *)

(** A point at least half a scaled unit inside the scissor on both axes. *)
Definition withinScissor (uniforms : FragmentUniformBlock R) (p : vec2 R) : Prop :=
  let q := xy (mat3_mul (scissorMat uniforms) (vec3_of p 1%R)) in
  ((Rabs (x2 q) - x2 (scissorExt uniforms)) * x2 (scissorScale uniforms) <= - (1 / 2) /\
   (Rabs (y2 q) - y2 (scissorExt uniforms)) * y2 (scissorScale uniforms) <= - (1 / 2))%R.

Definition inUnit (c : R) : Prop := (0 <= c <= 1)%R.
Definition inUnit4 (v : vec4 R) : Prop :=
  inUnit (x4 v) /\ inUnit (y4 v) /\ inUnit (z4 v) /\ inUnit (w4 v).

Definition between (a b c : R) : Prop := (Rmin a b <= c <= Rmax a b)%R.

(** ** [NanovgSession::loadDemoData]

    The function fills a [DemoData] through a pointer and returns from the
    middle of its body: a state monad with an early return.  NanoVG and the
    file loader are the platform; what they answer may depend on the number
    of calls made so far.  [IGL_DEBUG_VERIFY(c)] has the value of [c]. *)

Module LoadDemoData.
Local Open Scope Z_scope.

(* the fields of DemoData that loadDemoData writes; the struct itself is
   declared in the demo's header *)
Record DemoData : Type := {
  fontNormal : Z;
  fontBold : Z;
  fontIcons : Z;
  fontEmoji : Z;
  images : list Z      (* the array indexed by the loop, images[0..11] *)
}.

(* what the platform's file loader and NanoVG answer *)
Record Platform : Type := {
  (* getImageFullPath: the loader's full path, or on Android the path under
     the application's files directory and the empty string for a missing
     file *)
  fullPath : string -> string;
  (* the first argument is the number of calls made into NanoVG so far *)
  nvgCreateImage : nat -> string -> Z -> Z;     (* 0: the image cannot be loaded *)
  nvgCreateFont : nat -> string -> string -> Z  (* -1: the font cannot be added *)
}.

Inductive Call : Type :=
| CreateImage (filename : string) (imageFlags : Z)
| CreateFont (name filename : string)
| AddFallbackFontId (baseFont fallbackFont : Z).

Record St : Type := { data : DemoData; calls : list Call }.

(* a computation either goes on with a value or has executed [return r] *)
Definition M (A : Type) : Type := St -> St * (A + Z).

Definition ret {A : Type} (a : A) : M A := fun s => (s, inl a).
Definition returning {A : Type} (r : Z) : M A := fun s => (s, inr r).
Definition bind {A B : Type} (m : M A) (k : A -> M B) : M B :=
  fun s => match m s with
           | (s', inl a) => k a s'
           | (s', inr r) => (s', inr r)
           end.

Notation "x <- m ;; k" := (bind m (fun x => k))
  (at level 61, m at next level, right associativity).
Notation "m ;; k" := (bind m (fun _ => k))
  (at level 61, right associativity).

Definition call (c : Call) : M unit :=
  fun s => ({| data := data s; calls := calls s ++ [c] |}, inl tt).
Definition get : M DemoData := fun s => (s, inl (data s)).
Definition put (d : DemoData) : M unit :=
  fun s => ({| data := d; calls := calls s |}, inl tt).

(* a[i] = v; an index past the end leaves the list alone *)
Fixpoint store (a : list Z) (i : nat) (v : Z) : list Z :=
  match a, i with
  | [], _ => []
  | _ :: rest, O => v :: rest
  | h :: rest, S i' => h :: store rest i' v
  end.

Definition set_image (i : Z) (v : Z) : M unit :=
  d <- get ;;
  put {| fontNormal := fontNormal d; fontBold := fontBold d;
         fontIcons := fontIcons d; fontEmoji := fontEmoji d;
         images := store (images d) (Z.to_nat i) v |}.
Definition set_fontIcons (v : Z) : M unit :=
  d <- get ;;
  put {| fontNormal := fontNormal d; fontBold := fontBold d;
         fontIcons := v; fontEmoji := fontEmoji d; images := images d |}.
Definition set_fontNormal (v : Z) : M unit :=
  d <- get ;;
  put {| fontNormal := v; fontBold := fontBold d;
         fontIcons := fontIcons d; fontEmoji := fontEmoji d; images := images d |}.
Definition set_fontBold (v : Z) : M unit :=
  d <- get ;;
  put {| fontNormal := fontNormal d; fontBold := v;
         fontIcons := fontIcons d; fontEmoji := fontEmoji d; images := images d |}.
Definition set_fontEmoji (v : Z) : M unit :=
  d <- get ;;
  put {| fontNormal := fontNormal d; fontBold := fontBold d;
         fontIcons := fontIcons d; fontEmoji := v; images := images d |}.

(* snprintf(file, size, "image%d.jpg", n): at most size - 1 characters *)
Definition snprintf_image (size : nat) (n : Z) : string :=
  substring 0 (size - 1)
    ("image" ++ NilZero.string_of_int (Z.to_int n) ++ ".jpg")%string.

Section Load.
Variable platform : Platform.

Definition getImageFullPath (name : string) : string := fullPath platform name.

Definition createImage (filename : string) (imageFlags : Z) : M Z :=
  fun s =>
    ({| data := data s; calls := calls s ++ [CreateImage filename imageFlags] |},
     inl (nvgCreateImage platform (List.length (calls s)) filename imageFlags)).

Definition createFont (name filename : string) : M Z :=
  fun s =>
    ({| data := data s; calls := calls s ++ [CreateFont name filename] |},
     inl (nvgCreateFont platform (List.length (calls s)) name filename)).

(* for (int i = ...; i < 12; i++), with [count] iterations left *)
Fixpoint loadImages (count : nat) (i : Z) : M unit :=
  match count with
  | O => ret tt
  | S count' =>
      let file := snprintf_image 128 (i + 1) in
      let full_file := getImageFullPath file in
      h <- createImage full_file 0 ;;
      set_image i h ;;
      if h =? 0 then returning (-1)
      else loadImages count' (i + 1)
  end.

Definition loadDemoDataBody : M Z :=
  loadImages (Z.to_nat (12 - 0)) 0 ;;
  icons <- createFont "icons" (getImageFullPath "entypo.ttf") ;;
  set_fontIcons icons ;;
  if icons =? -1 then returning (-1) else
  normal <- createFont "sans" (getImageFullPath "Roboto-Regular.ttf") ;;
  set_fontNormal normal ;;
  if normal =? -1 then returning (-1) else
  bold <- createFont "sans-bold" (getImageFullPath "Roboto-Bold.ttf") ;;
  set_fontBold bold ;;
  if bold =? -1 then returning (-1) else
  emoji <- createFont "emoji" (getImageFullPath "NotoEmoji-Regular.ttf") ;;
  set_fontEmoji emoji ;;
  if emoji =? -1 then returning (-1) else
  d <- get ;;
  call (AddFallbackFontId (fontNormal d) (fontEmoji d)) ;;
  d <- get ;;
  call (AddFallbackFontId (fontBold d) (fontEmoji d)) ;;
  ret 0.

(* [vg] is the context pointer: [None] is the null pointer *)
Definition loadDemoData (vg : option Z) (d : DemoData) : Z * St :=
  match vg with
  | None => (-1, {| data := d; calls := [] |})
  | Some _ =>
      match loadDemoDataBody {| data := d; calls := [] |} with
      | (s, inl r) => (r, s)
      | (s, inr r) => (r, s)
      end
  end.
End Load.

(** What the platform answers for the k-th image and for the four fonts, and
    the calls that ask for them. *)
Section Answers.
Variable platform : Platform.

Definition imageFile (k : Z) : string := snprintf_image 128 (k + 1).
Definition imageHandle (k : Z) : Z :=
  nvgCreateImage platform (Z.to_nat k) (fullPath platform (imageFile k)) 0.
Definition imageCall (k : Z) : Call := CreateImage (fullPath platform (imageFile k)) 0.

(* i, i+1, ..., i+n-1 *)
Definition indices (i : Z) (n : nat) : list Z := map (fun j => i + Z.of_nat j) (seq 0 n).

Definition with_images (d : DemoData) (a : list Z) : DemoData :=
  {| fontNormal := fontNormal d; fontBold := fontBold d;
     fontIcons := fontIcons d; fontEmoji := fontEmoji d; images := a |}.

(* the array after images[k] = imageHandle k for each k of [ks], in order *)
Definition storeAll (a : list Z) (ks : list Z) : list Z :=
  fold_left (fun acc k => store acc (Z.to_nat k) (imageHandle k)) ks a.

Definition iconsHandle : Z :=
  nvgCreateFont platform 12 "icons" (fullPath platform "entypo.ttf").
Definition normalHandle : Z :=
  nvgCreateFont platform 13 "sans" (fullPath platform "Roboto-Regular.ttf").
Definition boldHandle : Z :=
  nvgCreateFont platform 14 "sans-bold" (fullPath platform "Roboto-Bold.ttf").
Definition emojiHandle : Z :=
  nvgCreateFont platform 15 "emoji" (fullPath platform "NotoEmoji-Regular.ttf").

Definition imagesLoad : Prop := forall k, 0 <= k < 12 -> imageHandle k <> 0.
Definition fontsLoad : Prop :=
  iconsHandle <> -1 /\ normalHandle <> -1 /\ boldHandle <> -1 /\ emojiHandle <> -1.

Definition fontCalls : list Call :=
  [ CreateFont "icons" (fullPath platform "entypo.ttf");
    CreateFont "sans" (fullPath platform "Roboto-Regular.ttf");
    CreateFont "sans-bold" (fullPath platform "Roboto-Bold.ttf");
    CreateFont "emoji" (fullPath platform "NotoEmoji-Regular.ttf") ].

Definition isFallback (c : Call) : bool :=
  match c with AddFallbackFontId _ _ => true | _ => false end.
Definition isCreateFont (c : Call) : bool :=
  match c with CreateFont _ _ => true | _ => false end.

(* the state after the twelve images have been created *)
Definition afterImages (d : DemoData) : St :=
  {| data := with_images d (storeAll (images d) (indices 0 12));
     calls := map imageCall (indices 0 12) |}.
End Answers.

(** A platform with its assets under /assets: image handles count from 1,
    font handles from 0; the call number [badCall] into NanoVG fails. *)
Definition samplePlatform (badCall : nat) : Platform :=
  {| fullPath := fun name => ("/assets/" ++ name)%string;
     nvgCreateImage := fun n _ _ => if (n =? badCall)%nat then 0 else Z.of_nat (S n);
     nvgCreateFont := fun n _ _ => if (n =? badCall)%nat then -1 else Z.of_nat n - 12 |}.

Definition emptyData : DemoData :=
  {| fontNormal := -1; fontBold := -1; fontIcons := -1; fontEmoji := -1;
     images := repeat 0 12 |}.
End LoadDemoData.

(** ** [NanovgSession::update] and the shell's loop around it *)

Module RenderLoop.
Section Loop.
Context {F : Type} `{GLFloat F}.
Local Open Scope glsl_scope.

Record Texture : Type := {
  handle : Z;
  width : Z;       (* getDimensions().width *)
  height : Z
}.

Record SurfaceTextures : Type := { color : Texture; depth : Texture }.

Inductive DeviceCall : Type :=
| createFramebuffer (colorTexture depthTexture stencilTexture : Z)
| updateDrawable (texture : Z)
| createCommandBuffer
| createRenderCommandEncoder
| nanovg (c : NanovgSession.Call F)          (* a call made by drawNanovg *)
| endEncoding
| present (texture : Z)
| submit
| RenderSession_update.

(* [shouldPresent] is shellParams().shouldPresent *)
Definition update (shouldPresent : bool) (s : NanovgSession.State)
    (clock : NanovgSession.Clock F) (surfaceTextures : SurfaceTextures)
    : NanovgSession.State * list DeviceCall :=
  let dimensions := color surfaceTextures in
  let drawn := NanovgSession.drawNanovg s clock
                 (fofZ (width dimensions)) (fofZ (height dimensions)) in
  (fst drawn,
   [ createFramebuffer (handle (color surfaceTextures)) (handle (depth surfaceTextures))
                       (handle (depth surfaceTextures));
     updateDrawable (handle (color surfaceTextures));
     createCommandBuffer;
     createRenderCommandEncoder ]
   ++ map nanovg (snd drawn)
   ++ [ endEncoding ]
   ++ (if shouldPresent then [ present (handle (color surfaceTextures)) ] else [])
   ++ [ submit; RenderSession_update ]).

(* one turn of the shell's loop: the listener has recorded the pointer at
   (pointerX, pointerY), then the shell calls update *)
Record Turn : Type := {
  pointerX : Z;
  pointerY : Z;
  shouldPresent : bool;
  clock : NanovgSession.Clock F;
  surface : SurfaceTextures
}.

Definition pointerMoved (s : NanovgSession.State) (x y : Z) : NanovgSession.State :=
  {| NanovgSession.times_ := NanovgSession.times_ s;
     NanovgSession.mouseX := x; NanovgSession.mouseY := y |}.

Fixpoint run (s : NanovgSession.State) (turns : list Turn)
    : NanovgSession.State * list DeviceCall :=
  match turns with
  | [] => (s, [])
  | t :: rest =>
      let r1 := update (shouldPresent t) (pointerMoved s (pointerX t) (pointerY t))
                       (clock t) (surface t) in
      let r2 := run (fst r1) rest in
      (fst r2, snd r1 ++ snd r2)
  end.

(* where a call log stands with respect to the encoder and the frame *)
Inductive Phase : Type := Idle | Encoding | InFrame | Ended.

Definition step (p : Phase) (c : DeviceCall) : option Phase :=
  match p, c with
  | Idle, createFramebuffer _ _ _ => Some Idle
  | Idle, updateDrawable _ => Some Idle
  | Idle, createCommandBuffer => Some Idle
  | Idle, RenderSession_update => Some Idle
  | Idle, createRenderCommandEncoder => Some Encoding
  | Encoding, nanovg (NanovgSession.nvgBeginFrame _ _ _) => Some InFrame
  | Encoding, nanovg (NanovgSession.updateGraph _ _) => Some Encoding
  | Encoding, endEncoding => Some Ended
  | InFrame, nanovg NanovgSession.SetRenderCommandEncoder => Some InFrame
  | InFrame, nanovg (NanovgSession.renderDemo _ _ _ _ _ _) => Some InFrame
  | InFrame, nanovg (NanovgSession.renderGraph _ _ _) => Some InFrame
  | InFrame, nanovg NanovgSession.nvgEndFrame => Some Encoding
  | Ended, present _ => Some Ended
  | Ended, submit => Some Idle
  | _, _ => None
  end.

Fixpoint phaseAfter (p : Phase) (log : list DeviceCall) : option Phase :=
  match log with
  | [] => Some p
  | c :: rest => match step p c with
                 | Some p' => phaseAfter p' rest
                 | None => None
                 end
  end.

Definition isPresent (c : DeviceCall) : bool :=
  match c with present _ => true | _ => false end.

Fixpoint frames (log : list DeviceCall) : list (F * F * F) :=
  match log with
  | [] => []
  | nanovg (NanovgSession.nvgBeginFrame w h r) :: rest => (w, h, r) :: frames rest
  | _ :: rest => frames rest
  end.

Fixpoint demoTimes (log : list DeviceCall) : list F :=
  match log with
  | [] => []
  | nanovg (NanovgSession.renderDemo _ _ _ _ t _) :: rest => t :: demoTimes rest
  | _ :: rest => demoTimes rest
  end.
End Loop.
Arguments Texture : clear implicits.
Arguments SurfaceTextures : clear implicits.
Arguments DeviceCall F : clear implicits.
Arguments Turn F : clear implicits.
End RenderLoop.

(** A turn in single precision: a 1920 x 1080 surface, the pointer at
    (3, 4). *)
Definition sampleTurn (present : bool) : RenderLoop.Turn binary32 :=
  {| RenderLoop.pointerX := 3; RenderLoop.pointerY := 4;
     RenderLoop.shouldPresent := present;
     RenderLoop.clock :=
       {| NanovgSession.start := Sample.b32 0; NanovgSession.finish := Sample.b32 0;
          NanovgSession.deltaSeconds := Sample.b32 0 |};
     RenderLoop.surface :=
       {| RenderLoop.color :=
            {| RenderLoop.handle := 7; RenderLoop.width := 1920;
               RenderLoop.height := 1080 |};
          RenderLoop.depth :=
            {| RenderLoop.handle := 8; RenderLoop.width := 1920;
               RenderLoop.height := 1080 |} |} |}.

(** The session at its largest frame count. *)
Definition lastCount : NanovgSession.State :=
  {| NanovgSession.times_ := 2147483647; NanovgSession.mouseX := 0;
     NanovgSession.mouseY := 0 |}.

Ltac exact_ops :=
  cbn [fofZ fhalf fadd fsub fmul fdiv fabs fsqrt GLFloat_R
       x2 y2 x3 y3 z3 x4 y4 z4 w4] in *.

(** * Properties *)

(** ** Each body is a dispatch on the two selectors *)

Section Dispatch.
Context {F : Type} `{GLFloat F}.
Local Open Scope glsl_scope.
Variable uniforms : FragmentUniformBlock F.
Variable textureUnit : sampler2D F.

Lemma fragmentShaderNoAntiAliasing_dispatch (fpos ftcoord : vec2 F) :
  NoAntiAliasing.fragmentShaderNoAntiAliasing uniforms textureUnit fpos ftcoord =
  let scissor := NoAntiAliasing.scissorMask uniforms fpos in
  if scissor == fofZ 0 then vec4_splat (fofZ 0)
  else branchNoAA uniforms textureUnit
         (paintKindNoAA (type uniforms)) (texChannelNoAA (texType uniforms))
         scissor fpos ftcoord.
Proof.
  unfold NoAntiAliasing.fragmentShaderNoAntiAliasing, paintKindNoAA, texChannelNoAA.
  cbv zeta.
  destruct (NoAntiAliasing.scissorMask uniforms fpos == fofZ 0); [reflexivity|].
  destruct (type uniforms =? 0)%Z; [reflexivity|].
  destruct (type uniforms =? 1)%Z;
    destruct (texType uniforms =? 1)%Z; try reflexivity;
    destruct (texType uniforms =? 2)%Z; reflexivity.
Qed.

Lemma fragmentShaderAntiAliasing_dispatch (fpos ftcoord : vec2 F) :
  AntiAliasing.fragmentShaderAntiAliasing uniforms textureUnit fpos ftcoord =
  let scissor := AntiAliasing.scissorMask uniforms fpos in
  if scissor == fofZ 0 then vec4_splat (fofZ 0)
  else
    match paintKindAA (type uniforms) with
    | IMG =>
        branchAA uniforms textureUnit IMG (texChannelAA (texType uniforms))
          scissor (fofZ 1) fpos ftcoord
    | k =>
        let strokeAlpha := AntiAliasing.strokeMask uniforms ftcoord in
        if strokeAlpha <? strokeThr uniforms then vec4_splat (fofZ 0)
        else branchAA uniforms textureUnit k (texChannelAA (texType uniforms))
               scissor strokeAlpha fpos ftcoord
    end.
Proof.
  unfold AntiAliasing.fragmentShaderAntiAliasing, paintKindAA, texChannelAA.
  cbv zeta.
  destruct (AntiAliasing.scissorMask uniforms fpos == fofZ 0); [reflexivity|].
  destruct (type uniforms =? 2)%Z.
  - destruct (texType uniforms =? 1)%Z; try reflexivity;
      destruct (texType uniforms =? 2)%Z; reflexivity.
  - destruct (AntiAliasing.strokeMask uniforms ftcoord <? strokeThr uniforms);
      [destruct (type uniforms =? 0)%Z; reflexivity|].
    destruct (type uniforms =? 0)%Z; [reflexivity|].
    destruct (texType uniforms =? 1)%Z; try reflexivity;
      destruct (texType uniforms =? 2)%Z; reflexivity.
Qed.
End Dispatch.

(** ** Exact arithmetic *)

Section Exact.
Local Open Scope R_scope.

Lemma feqb_R_true (a b : R) : feqb a b = true <-> a = b.
Proof.
  simpl. destruct (Req_dec_T a b); split; intros; try reflexivity;
    try assumption; try discriminate; contradiction.
Qed.

Lemma min_R (a b : R) : min a b = Rmin a b.
Proof.
  unfold min, Rmin. simpl.
  destruct (Rlt_dec b a), (Rle_dec a b); lra.
Qed.

Lemma max_R (a b : R) : max a b = Rmax a b.
Proof.
  unfold max, Rmax. simpl.
  destruct (Rlt_dec a b), (Rle_dec a b); lra.
Qed.

Lemma clamp_R_range (a lo hi : R) : lo <= hi -> lo <= clamp a lo hi <= hi.
Proof.
  intros Hlh. unfold clamp. rewrite min_R, max_R.
  unfold Rmin, Rmax.
  destruct (Rle_dec a lo); destruct (Rle_dec _ hi); lra.
Qed.

Lemma clamp_R_inside (a lo hi : R) : lo <= a <= hi -> clamp a lo hi = a.
Proof.
  intros Ha. unfold clamp. rewrite min_R, max_R.
  unfold Rmin, Rmax.
  destruct (Rle_dec a lo); destruct (Rle_dec _ hi); lra.
Qed.

Lemma clamp_R_below (a lo hi : R) : a <= lo -> lo <= hi -> clamp a lo hi = lo.
Proof.
  intros Ha Hlh. unfold clamp. rewrite min_R, max_R.
  unfold Rmin, Rmax.
  destruct (Rle_dec a lo); destruct (Rle_dec _ hi); lra.
Qed.

Lemma scissorMask_beyond (uniforms : FragmentUniformBlock R) (p : vec2 R) :
  beyondScissor uniforms p ->
  NoAntiAliasing.scissorMask uniforms p = 0 /\ AntiAliasing.scissorMask uniforms p = 0.
Proof.
  unfold beyondScissor. cbv zeta. intros Hout.
  assert (Hmask : NoAntiAliasing.scissorMask uniforms p = 0).
  { unfold NoAntiAliasing.scissorMask. cbv zeta.
    unfold clamp2, sub2, mul2, abs2, vec2_splat. cbn [x2 y2].
    change (fofZ 0) with 0. change (fofZ 1) with 1. change fhalf with (1 / 2).
    change fsub with Rminus. change fmul with Rmult. change fabs with Rabs.
    destruct Hout as [Hx | Hy].
    - rewrite (clamp_R_below (1 / 2 - _) 0 1) by lra. apply Rmult_0_l.
    - rewrite (clamp_R_below (1 / 2 - (Rabs (y2 _) - _) * _) 0 1) by lra.
      apply Rmult_0_r. }
  split; [exact Hmask | exact Hmask].
Qed.
End Exact.

Section TextureBranchLemmas.
Context {F : Type} `{GLFloat F}.
Local Open Scope glsl_scope.

Lemma textureBranches_texel (uniforms : FragmentUniformBlock F)
    (textureUnit : sampler2D F) (fpos ftcoord : vec2 F) (m : TexChannel) :
  texChannelNoAA (texType uniforms) = m ->
  textureBranchesApply uniforms textureUnit fpos ftcoord (texel m).
Proof.
  intros Hm. unfold textureBranchesApply. cbv zeta.
  split; [|split; [|split]].
  - intros Hs Ht. rewrite fragmentShaderNoAntiAliasing_dispatch. cbv zeta.
    rewrite Hs, Ht, Hm. reflexivity.
  - intros Hs Ht0 Ht1. rewrite fragmentShaderNoAntiAliasing_dispatch. cbv zeta.
    rewrite Hs, Hm. unfold paintKindNoAA.
    apply Z.eqb_neq in Ht0, Ht1. rewrite Ht0, Ht1. reflexivity.
  - intros Hs Ht. rewrite fragmentShaderAntiAliasing_dispatch. cbv zeta.
    rewrite Hs, Ht. change (texChannelAA (texType uniforms))
      with (texChannelNoAA (texType uniforms)). rewrite Hm. reflexivity.
  - intros Hs Ht2 Ht0 Hk. rewrite fragmentShaderAntiAliasing_dispatch. cbv zeta.
    rewrite Hs. unfold paintKindAA.
    apply Z.eqb_neq in Ht0, Ht2. rewrite Ht0, Ht2, Hk.
    change (texChannelAA (texType uniforms))
      with (texChannelNoAA (texType uniforms)). rewrite Hm. reflexivity.
Qed.
End TextureBranchLemmas.

(** ** The helpers shared by the two fragment bodies *)

(** C1: the [scissorMask] and [sdroundrect] of the non-anti-aliased body and
    of the anti-aliased body are the same functions: whatever the operations
    of [float] are, for every uniform block and every point the two
    [scissorMask] results are equal and the two [sdroundrect] results are
    equal. *)
Theorem scissorMask_sdroundrect_agree :
  forall (F : Type) (HF : GLFloat F) (uniforms : FragmentUniformBlock F) (p : vec2 F),
    NoAntiAliasing.scissorMask uniforms p = AntiAliasing.scissorMask uniforms p /\
    NoAntiAliasing.sdroundrect uniforms p = AntiAliasing.sdroundrect uniforms p.
Proof.
  intros F HF uniforms p. split.
  - unfold NoAntiAliasing.scissorMask, AntiAliasing.scissorMask. reflexivity.
  - unfold NoAntiAliasing.sdroundrect, AntiAliasing.sdroundrect. reflexivity.
Qed.

(** The helpers read only the uniforms the claim lists. *)
Lemma scissorMask_reads (F : Type) (HF : GLFloat F) (u u' : FragmentUniformBlock F)
    (p : vec2 F) :
  scissorMat u' = scissorMat u -> scissorExt u' = scissorExt u ->
  scissorScale u' = scissorScale u ->
  NoAntiAliasing.scissorMask u' p = NoAntiAliasing.scissorMask u p /\
  AntiAliasing.scissorMask u' p = AntiAliasing.scissorMask u p.
Proof.
  intros Hm He Hs.
  unfold NoAntiAliasing.scissorMask, AntiAliasing.scissorMask.
  rewrite Hm, He, Hs. split; reflexivity.
Qed.

Lemma sdroundrect_reads (F : Type) (HF : GLFloat F) (u u' : FragmentUniformBlock F)
    (pt : vec2 F) :
  extent u' = extent u -> radius u' = radius u ->
  NoAntiAliasing.sdroundrect u' pt = NoAntiAliasing.sdroundrect u pt /\
  AntiAliasing.sdroundrect u' pt = AntiAliasing.sdroundrect u pt.
Proof.
  intros He Hr.
  unfold NoAntiAliasing.sdroundrect, AntiAliasing.sdroundrect.
  rewrite He, Hr. split; reflexivity.
Qed.

(** ** How the bodies read [type] and [texType] *)

Lemma paintKindNoAA_in_range (t : Z) (k : PaintKind) :
  paintKindOfType t = Some k -> paintKindNoAA t = k.
Proof.
  intros Hk.
  destruct t as [|[p|[p|p|]|]|p]; simpl in Hk; try discriminate Hk;
    inversion Hk; reflexivity.
Qed.

Lemma paintKindAA_in_range (t : Z) (k : PaintKind) :
  paintKindOfType t = Some k -> paintKindAA t = k.
Proof.
  intros Hk.
  destruct t as [|[p|[p|p|]|]|p]; simpl in Hk; try discriminate Hk;
    inversion Hk; reflexivity.
Qed.

Lemma paintKind_out_of_range (t : Z) :
  paintKindOfType t = None -> paintKindNoAA t = IMG /\ paintKindAA t = FILLIMG.
Proof.
  intros Hk.
  destruct t as [|[p|[p|p|]|]|p]; simpl in Hk; try discriminate Hk;
    split; reflexivity.
Qed.

Lemma texChannel_in_range (t : Z) (m : TexChannel) :
  texChannelOfTexType t = Some m -> texChannelNoAA t = m /\ texChannelAA t = m.
Proof.
  intros Hm.
  destruct t as [|[p|[p|p|]|]|p]; simpl in Hm; try discriminate Hm;
    inversion Hm; split; reflexivity.
Qed.

(** C2, as stated, fails: for [type = 3] the non-anti-aliased body falls into
    its last branch, the image draw at the interpolated texture coordinate,
    while the anti-aliased body falls into its own last branch, the image
    fill sampled in paint space. *)
Lemma paintKind_differs_at_3 :
  paintKindNoAA 3 = IMG /\ paintKindAA 3 = FILLIMG /\
  ~ (forall type : Z, paintKindNoAA type = paintKindAA type).
Proof.
  split; [reflexivity|]. split; [reflexivity|].
  intros Hall. specialize (Hall 3%Z). discriminate Hall.
Qed.

(** C2 (amended): for [type] in {0, 1, 2} both bodies select the same paint
    kind, the documented one (0 gradient fill, 1 image fill in paint space,
    2 image draw at the texture coordinate); for every [texType], in range
    or not, both bodies select the same channel treatment. *)
Theorem selectors_read_alike_in_range :
  forall (type texType : Z),
    (type = 0 \/ type = 1 \/ type = 2)%Z ->
    paintKindNoAA type = paintKindAA type /\
    paintKindOfType type = Some (paintKindNoAA type) /\
    texChannelNoAA texType = texChannelAA texType.
Proof.
  intros type texType [-> | [-> | ->]]; repeat split; reflexivity.
Qed.

Lemma selectors_read_alike_in_range_witness :
  paintKindNoAA 1 = paintKindAA 1 /\
  paintKindOfType 1 = Some (paintKindNoAA 1) /\
  texChannelNoAA 7 = texChannelAA 7.
Proof.
  apply (selectors_read_alike_in_range 1 7). right; left; reflexivity.
Defined.

(** On single precision data the two bodies, given [type = 3], full stroke
    coverage and the same texture, sample different texels. *)
Example out_of_range_type_outputs :
  NoAntiAliasing.fragmentShaderNoAntiAliasing
    (Sample.block 0 3) Sample.checker Sample.inside Sample.midStroke
  = Vec4 (Sample.b32 0) (Sample.b32 0) (Sample.b32 0) (Sample.b32 1) /\
  AntiAliasing.fragmentShaderAntiAliasing
    (Sample.block 0 3) Sample.checker Sample.inside Sample.midStroke
  = Vec4 (Sample.b32 1) (Sample.b32 0) (Sample.b32 0) fhalf.
Proof. split; vm_compute; reflexivity. Qed.

(** ** The scissor test *)

(** C3, as stated, fails in its parenthesis: a point outside [scissorExt]
    need not have mask zero.  The point (50.25, 0) lies a quarter of a unit
    outside the scissor of half extent 50 and scale 1; its mask is 0.25 and
    both bodies return the gradient's outer colour at a quarter strength,
    (0, 0, 0.25, 0.25), not the transparent colour. *)
Lemma outside_scissor_is_not_always_transparent :
  (SFltb (x2 (scissorExt (Sample.block 0 0))) (x2 Sample.justOutside)) = true /\
  NoAntiAliasing.scissorMask (Sample.block 0 0) Sample.justOutside
  = binary_normalize 24 128 1 (-2) false /\
  NoAntiAliasing.fragmentShaderNoAntiAliasing
    (Sample.block 0 0) Sample.checker Sample.justOutside Sample.midStroke
  = Vec4 (Sample.b32 0) (Sample.b32 0)
         (binary_normalize 24 128 1 (-2) false) (binary_normalize 24 128 1 (-2) false) /\
  AntiAliasing.fragmentShaderAntiAliasing
    (Sample.block 0 0) Sample.checker Sample.justOutside Sample.midStroke
  = Vec4 (Sample.b32 0) (Sample.b32 0)
         (binary_normalize 24 128 1 (-2) false) (binary_normalize 24 128 1 (-2) false) /\
  NoAntiAliasing.fragmentShaderNoAntiAliasing
    (Sample.block 0 0) Sample.checker Sample.justOutside Sample.midStroke
  <> Vec4 (fofZ 0) (fofZ 0) (fofZ 0) (fofZ 0).
Proof.
  split; [vm_compute; reflexivity|].
  split; [vm_compute; reflexivity|].
  split; [vm_compute; reflexivity|].
  split; [vm_compute; reflexivity|].
  vm_compute. discriminate.
Qed.

(** C3 (amended): in both bodies, whenever [scissorMask fpos] compares equal
    to zero the fragment function returns (0,0,0,0), whatever [type],
    [texType] and the bound texture are. *)
Theorem scissor_zero_is_transparent :
  forall (F : Type) (HF : GLFloat F) (uniforms : FragmentUniformBlock F)
         (texType' type' : Z) (textureUnit : sampler2D F) (fpos ftcoord : vec2 F),
    ((NoAntiAliasing.scissorMask uniforms fpos == fofZ 0)%glsl = true ->
     NoAntiAliasing.fragmentShaderNoAntiAliasing
       (with_selectors uniforms texType' type') textureUnit fpos ftcoord
     = Vec4 (fofZ 0) (fofZ 0) (fofZ 0) (fofZ 0)) /\
    ((AntiAliasing.scissorMask uniforms fpos == fofZ 0)%glsl = true ->
     AntiAliasing.fragmentShaderAntiAliasing
       (with_selectors uniforms texType' type') textureUnit fpos ftcoord
     = Vec4 (fofZ 0) (fofZ 0) (fofZ 0) (fofZ 0)).
Proof.
  intros F HF uniforms texType' type' textureUnit fpos ftcoord.
  split; intros Hzero.
  - unfold NoAntiAliasing.fragmentShaderNoAntiAliasing. cbv zeta.
    change (NoAntiAliasing.scissorMask (with_selectors uniforms texType' type') fpos)
      with (NoAntiAliasing.scissorMask uniforms fpos).
    rewrite Hzero. reflexivity.
  - unfold AntiAliasing.fragmentShaderAntiAliasing. cbv zeta.
    change (AntiAliasing.scissorMask (with_selectors uniforms texType' type') fpos)
      with (AntiAliasing.scissorMask uniforms fpos).
    rewrite Hzero. reflexivity.
Qed.

Lemma scissor_zero_is_transparent_witness :
  NoAntiAliasing.fragmentShaderNoAntiAliasing
    (with_selectors (Sample.block 0 0) 1 2) Sample.checker Sample.outside Sample.midStroke
  = Vec4 (fofZ 0) (fofZ 0) (fofZ 0) (fofZ 0) /\
  AntiAliasing.fragmentShaderAntiAliasing
    (with_selectors (Sample.block 0 0) 1 2) Sample.checker Sample.outside Sample.midStroke
  = Vec4 (fofZ 0) (fofZ 0) (fofZ 0) (fofZ 0).
Proof.
  destruct (scissor_zero_is_transparent binary32 GLFloat_binary32 (Sample.block 0 0)
              1%Z 2%Z Sample.checker Sample.outside Sample.midStroke) as [Hno Haa].
  split.
  - apply Hno. vm_compute. reflexivity.
  - apply Haa. vm_compute. reflexivity.
Defined.

(** In exact arithmetic the mask is zero at every point beyond the scissor. *)
Example scissor_rejects_beyond_exact :
  NoAntiAliasing.scissorMask ExactSample.block (Vec2 100 0)%R = 0%R.
Proof.
  apply scissorMask_beyond. left.
  unfold ExactSample.block, ExactSample.identity3, xy, mat3_mul, vec3_of.
  cbn [scissorMat scissorExt scissorScale m3c0 m3c1 m3c2]. exact_ops.
  replace (1 * 100 + 0 * 0 + 0 * 1)%R with 100%R by lra.
  rewrite Rabs_pos_eq by lra. lra.
Qed.

(** ** The stroke coverage test *)

(** C4, as stated, fails: with [type = 2] the anti-aliased body returns from
    the image branch before it looks at the stroke coverage.  Here the
    fragment passes the scissor test, its coverage 0 is below the threshold
    0.5, and the result is (1, 0, 0, 0.5). *)
Lemma image_draw_skips_stroke_test :
  (AntiAliasing.scissorMask (Sample.block 0 2) Sample.inside == fofZ 0)%glsl = false /\
  (AntiAliasing.strokeMask (Sample.block 0 2) Sample.onEdge
     <? strokeThr (Sample.block 0 2))%glsl = true /\
  AntiAliasing.fragmentShaderAntiAliasing
    (Sample.block 0 2) Sample.checker Sample.inside Sample.onEdge
  = Vec4 (Sample.b32 1) (Sample.b32 0) (Sample.b32 0) fhalf /\
  AntiAliasing.fragmentShaderAntiAliasing
    (Sample.block 0 2) Sample.checker Sample.inside Sample.onEdge
  <> Vec4 (fofZ 0) (fofZ 0) (fofZ 0) (fofZ 0).
Proof.
  split; [vm_compute; reflexivity|].
  split; [vm_compute; reflexivity|].
  split; [vm_compute; reflexivity|].
  vm_compute. discriminate.
Qed.

(** C4 (amended): in the anti-aliased body, a fragment that passes the
    scissor test and whose [type] is not 2 is returned as (0,0,0,0) when
    [strokeMask ftcoord] is below [strokeThr]; the non-anti-aliased body
    gives the same result whatever [strokeMult] and [strokeThr] are. *)
Theorem stroke_below_threshold_is_transparent :
  forall (F : Type) (HF : GLFloat F) (uniforms : FragmentUniformBlock F)
         (textureUnit : sampler2D F) (fpos ftcoord : vec2 F),
    ((AntiAliasing.scissorMask uniforms fpos == fofZ 0)%glsl = false ->
     type uniforms <> 2%Z ->
     (AntiAliasing.strokeMask uniforms ftcoord <? strokeThr uniforms)%glsl = true ->
     AntiAliasing.fragmentShaderAntiAliasing uniforms textureUnit fpos ftcoord
     = Vec4 (fofZ 0) (fofZ 0) (fofZ 0) (fofZ 0)) /\
    (forall strokeMult' strokeThr' : F,
       NoAntiAliasing.fragmentShaderNoAntiAliasing
         (with_stroke uniforms strokeMult' strokeThr') textureUnit fpos ftcoord
       = NoAntiAliasing.fragmentShaderNoAntiAliasing uniforms textureUnit fpos ftcoord).
Proof.
  intros F HF uniforms textureUnit fpos ftcoord. split.
  - intros Hscissor Htype Hstroke.
    unfold AntiAliasing.fragmentShaderAntiAliasing. cbv zeta.
    rewrite Hscissor.
    apply Z.eqb_neq in Htype. rewrite Htype, Hstroke. reflexivity.
  - intros strokeMult' strokeThr'. reflexivity.
Qed.

Lemma stroke_below_threshold_is_transparent_witness :
  AntiAliasing.fragmentShaderAntiAliasing
    (Sample.block 0 1) Sample.checker Sample.inside Sample.onEdge
  = Vec4 (fofZ 0) (fofZ 0) (fofZ 0) (fofZ 0).
Proof.
  apply (proj1 (stroke_below_threshold_is_transparent binary32 GLFloat_binary32
                  (Sample.block 0 1) Sample.checker Sample.inside Sample.onEdge)).
  - vm_compute; reflexivity.
  - discriminate.
  - vm_compute; reflexivity.
Defined.

(** ** The texture branches *)

(** C6: with [texType = 1], every branch that samples the texture, in either
    body, turns the sample (r, g, b, a) into (r*a, g*a, b*a, a) before the
    scissor and stroke factors and the product with [innerCol]; the sample
    (1, 1, 1, 0.5) becomes (0.5, 0.5, 0.5, 0.5), in exact arithmetic and in
    single precision alike. *)
Theorem texType_1_premultiplies :
  (forall (F : Type) (HF : GLFloat F) (uniforms : FragmentUniformBlock F)
          (textureUnit : sampler2D F) (fpos ftcoord : vec2 F),
     texType uniforms = 1%Z ->
     textureBranchesApply uniforms textureUnit fpos ftcoord premultiplied) /\
  premultiplied (Vec4 1 1 1 (1 / 2))%R = (Vec4 (1 / 2) (1 / 2) (1 / 2) (1 / 2))%R /\
  premultiplied (Vec4 (Sample.b32 1) (Sample.b32 1) (Sample.b32 1) fhalf)
  = Vec4 fhalf fhalf fhalf fhalf.
Proof.
  split; [|split].
  - intros F HF uniforms textureUnit fpos ftcoord Htex.
    apply (textureBranches_texel uniforms textureUnit fpos ftcoord PREMULTIPLY).
    rewrite Htex. reflexivity.
  - unfold premultiplied. simpl. f_equal; lra.
  - vm_compute. reflexivity.
Qed.

Lemma texType_1_premultiplies_witness :
  textureBranchesApply (Sample.block 1 1) Sample.checker Sample.inside Sample.midStroke
    premultiplied.
Proof.
  apply (proj1 texType_1_premultiplies binary32 GLFloat_binary32 (Sample.block 1 1)
           Sample.checker Sample.inside Sample.midStroke).
  reflexivity.
Defined.

(** On the sample data: the image fill premultiplies the texel
    (1, 1, 1, 0.5) and multiplies by the red [innerCol]. *)
Example premultiplied_fill_outputs :
  NoAntiAliasing.fragmentShaderNoAntiAliasing
    (Sample.block 1 1) Sample.checker Sample.inside Sample.midStroke
  = Vec4 fhalf (Sample.b32 0) (Sample.b32 0) fhalf /\
  AntiAliasing.fragmentShaderAntiAliasing
    (Sample.block 1 1) Sample.checker Sample.inside Sample.midStroke
  = Vec4 fhalf (Sample.b32 0) (Sample.b32 0) fhalf.
Proof. split; vm_compute; reflexivity. Qed.

(** C7: with [texType] neither 1 nor 2 (3 and -1 included), every branch
    that samples the texture, in either body, uses the sample unchanged, and
    each body returns what it returns for [texType = 0]. *)
Theorem texType_other_is_passthrough :
  forall (F : Type) (HF : GLFloat F) (uniforms : FragmentUniformBlock F)
         (textureUnit : sampler2D F) (fpos ftcoord : vec2 F),
    texType uniforms <> 1%Z -> texType uniforms <> 2%Z ->
    textureBranchesApply uniforms textureUnit fpos ftcoord (fun color => color) /\
    NoAntiAliasing.fragmentShaderNoAntiAliasing uniforms textureUnit fpos ftcoord
    = NoAntiAliasing.fragmentShaderNoAntiAliasing
        (with_selectors uniforms 0 (type uniforms)) textureUnit fpos ftcoord /\
    AntiAliasing.fragmentShaderAntiAliasing uniforms textureUnit fpos ftcoord
    = AntiAliasing.fragmentShaderAntiAliasing
        (with_selectors uniforms 0 (type uniforms)) textureUnit fpos ftcoord.
Proof.
  intros F HF uniforms textureUnit fpos ftcoord H1 H2.
  assert (Hm : texChannelNoAA (texType uniforms) = RGBA).
  { unfold texChannelNoAA. apply Z.eqb_neq in H1, H2. rewrite H1, H2. reflexivity. }
  split; [|split].
  - apply (textureBranches_texel uniforms textureUnit fpos ftcoord RGBA Hm).
  - rewrite !fragmentShaderNoAntiAliasing_dispatch. cbv zeta.
    rewrite Hm. reflexivity.
  - rewrite !fragmentShaderAntiAliasing_dispatch. cbv zeta.
    change (texChannelAA (texType uniforms)) with (texChannelNoAA (texType uniforms)).
    rewrite Hm. reflexivity.
Qed.

Lemma texType_other_is_passthrough_witness :
  NoAntiAliasing.fragmentShaderNoAntiAliasing
    (Sample.block 3 1) Sample.checker Sample.inside Sample.midStroke
  = NoAntiAliasing.fragmentShaderNoAntiAliasing
      (with_selectors (Sample.block 3 1) 0 1) Sample.checker Sample.inside Sample.midStroke
  /\
  AntiAliasing.fragmentShaderAntiAliasing
    (Sample.block (-1) 2) Sample.checker Sample.inside Sample.midStroke
  = AntiAliasing.fragmentShaderAntiAliasing
      (with_selectors (Sample.block (-1) 2) 0 2) Sample.checker Sample.inside
      Sample.midStroke.
Proof.
  split.
  - apply (proj1 (proj2 (texType_other_is_passthrough binary32 GLFloat_binary32
             (Sample.block 3 1) Sample.checker Sample.inside Sample.midStroke
             ltac:(discriminate) ltac:(discriminate)))).
  - apply (proj2 (proj2 (texType_other_is_passthrough binary32 GLFloat_binary32
             (Sample.block (-1) 2) Sample.checker Sample.inside Sample.midStroke
             ltac:(discriminate) ltac:(discriminate)))).
Defined.

(** ** The scissor mask is a coverage *)



(** ** The gradient at the edge of the rounded rectangle *)

Section Gradient.
Local Open Scope R_scope.
Variable uniforms : FragmentUniformBlock R.
Hypothesis Hfeather : feather uniforms = 2.
Hypothesis Hinner : innerCol uniforms = Vec4 1 0 0 1.
Hypothesis Houter : outerCol uniforms = Vec4 0 0 1 1.

Lemma blend_at_boundary (sd : R) :
  sd = 0 ->
  clamp ((feather uniforms * fhalf + sd) / feather uniforms)%glsl 0 1 = 1 / 2 /\
  mix4 (innerCol uniforms) (outerCol uniforms)
       (clamp ((feather uniforms * fhalf + sd) / feather uniforms)%glsl 0 1)
  = Vec4 (1 / 2) 0 (1 / 2) 1.
Proof.
  intros ->. rewrite Hfeather, Hinner, Houter. exact_ops.
  assert (Hd : clamp ((2 * (1 / 2) + 0) / 2) 0 1 = 1 / 2).
  { rewrite clamp_R_inside by lra. lra. }
  rewrite Hd. split; [reflexivity|].
  unfold mix4, mix. exact_ops. f_equal; lra.
Qed.

Lemma gradientColor_at_boundary (sd : R) :
  sd = 0 -> gradientColor uniforms sd = Vec4 (1 / 2) 0 (1 / 2) 1.
Proof. intros Hsd. unfold gradientColor. apply (blend_at_boundary sd Hsd). Qed.

Lemma scale4_by_zero (c : vec4 R) : vec4_splat 0 = scale4 c 0.
Proof. unfold vec4_splat, scale4. exact_ops. f_equal; lra. Qed.
End Gradient.

(** C5: in exact arithmetic, with feather 2, radius 10, innerCol (1,0,0,1)
    and outerCol (0,0,1,1), at every paint-space point where [sdroundrect]
    is 0 the blend factor d = clamp((feather*0.5 + sdroundrect(pt))/feather,
    0, 1) is 0.5 and mix(innerCol, outerCol, d) is (0.5, 0, 0.5, 1), for the
    [sdroundrect] of either body; with [type = 0] each fragment function
    returns that colour times its scissor (and stroke) factors. *)
Theorem gradient_boundary_is_half_blend :
  forall (uniforms : FragmentUniformBlock R),
    feather uniforms = 2%R -> radius uniforms = 10%R ->
    innerCol uniforms = Vec4 1%R 0%R 0%R 1%R ->
    outerCol uniforms = Vec4 0%R 0%R 1%R 1%R ->
    (forall pt : vec2 R,
       NoAntiAliasing.sdroundrect uniforms pt = 0%R ->
       let d := clamp ((feather uniforms * fhalf + NoAntiAliasing.sdroundrect uniforms pt)
                       / feather uniforms)%glsl 0%R 1%R in
       d = (1 / 2)%R /\
       mix4 (innerCol uniforms) (outerCol uniforms) d = Vec4 (1 / 2)%R 0%R (1 / 2)%R 1%R) /\
    (forall pt : vec2 R,
       AntiAliasing.sdroundrect uniforms pt = 0%R ->
       let d := clamp ((feather uniforms * fhalf + AntiAliasing.sdroundrect uniforms pt)
                       / feather uniforms)%glsl 0%R 1%R in
       d = (1 / 2)%R /\
       mix4 (innerCol uniforms) (outerCol uniforms) d = Vec4 (1 / 2)%R 0%R (1 / 2)%R 1%R) /\
    (forall (textureUnit : sampler2D R) (fpos ftcoord : vec2 R),
       type uniforms = 0%Z ->
       NoAntiAliasing.sdroundrect uniforms (paintSpacePoint uniforms fpos) = 0%R ->
       NoAntiAliasing.fragmentShaderNoAntiAliasing uniforms textureUnit fpos ftcoord
       = scale4 (Vec4 (1 / 2)%R 0%R (1 / 2)%R 1%R)
                (NoAntiAliasing.scissorMask uniforms fpos)) /\
    (forall (textureUnit : sampler2D R) (fpos ftcoord : vec2 R),
       type uniforms = 0%Z ->
       AntiAliasing.sdroundrect uniforms (paintSpacePoint uniforms fpos) = 0%R ->
       (AntiAliasing.strokeMask uniforms ftcoord <? strokeThr uniforms)%glsl = false ->
       AntiAliasing.fragmentShaderAntiAliasing uniforms textureUnit fpos ftcoord
       = scale4 (scale4 (Vec4 (1 / 2)%R 0%R (1 / 2)%R 1%R)
                        (AntiAliasing.scissorMask uniforms fpos))
                (AntiAliasing.strokeMask uniforms ftcoord)).
Proof.
  intros uniforms Hfeather _ Hinner Houter.
  split; [|split; [|split]].
  - intros pt Hsd. cbv zeta. apply (blend_at_boundary uniforms Hfeather Hinner Houter _ Hsd).
  - intros pt Hsd. cbv zeta. apply (blend_at_boundary uniforms Hfeather Hinner Houter _ Hsd).
  - intros textureUnit fpos ftcoord Htype Hsd.
    rewrite fragmentShaderNoAntiAliasing_dispatch. cbv zeta.
    destruct (NoAntiAliasing.scissorMask uniforms fpos == fofZ 0)%glsl eqn:Hs.
    + apply feqb_R_true in Hs. rewrite Hs. apply scale4_by_zero.
    + rewrite Htype. cbn [paintKindNoAA Z.eqb branchNoAA].
      rewrite (gradientColor_at_boundary uniforms Hfeather Hinner Houter _ Hsd).
      reflexivity.
  - intros textureUnit fpos ftcoord Htype Hsd Hstroke.
    rewrite fragmentShaderAntiAliasing_dispatch. cbv zeta.
    destruct (AntiAliasing.scissorMask uniforms fpos == fofZ 0)%glsl eqn:Hs.
    + apply feqb_R_true in Hs. rewrite Hs.
      unfold vec4_splat, scale4. exact_ops. f_equal; lra.
    + rewrite Htype. cbn [paintKindAA Z.eqb]. rewrite Hstroke.
      cbn [branchAA].
      rewrite (gradientColor_at_boundary uniforms Hfeather Hinner Houter _ Hsd).
      reflexivity.
Qed.

Lemma sdroundrect_exact_boundary :
  NoAntiAliasing.sdroundrect ExactSample.block
    (paintSpacePoint ExactSample.block ExactSample.boundary) = 0%R.
Proof.
  unfold NoAntiAliasing.sdroundrect, paintSpacePoint, ExactSample.block,
         ExactSample.boundary, ExactSample.identity3.
  cbv zeta.
  unfold sub2, abs2, vec2_splat, xy, mat3_mul, vec3_of, max2s, length2.
  cbn [extent radius paintMat m3c0 m3c1 m3c2].
  exact_ops.
  replace (1 * 20 + 0 * 5 + 0 * 1)%R with 20%R by lra.
  replace (0 * 20 + 1 * 5 + 0 * 1)%R with 5%R by lra.
  rewrite !Rabs_pos_eq by lra.
  replace (20 - (20 - 10))%R with 10%R by lra.
  replace (5 - (20 - 10))%R with (-5)%R by lra.
  rewrite !min_R, !max_R.
  rewrite (Rmax_left 10 (-5)) by lra.
  rewrite (Rmin_right 10 0) by lra.
  rewrite (Rmax_left 10 0) by lra.
  rewrite (Rmax_right (-5) 0) by lra.
  replace (10 * 10 + 0 * 0)%R with (Rsqr 10) by (unfold Rsqr; lra).
  rewrite sqrt_Rsqr by lra. lra.
Qed.

Lemma gradient_boundary_is_half_blend_witness :
  NoAntiAliasing.fragmentShaderNoAntiAliasing
    ExactSample.block ExactSample.black ExactSample.boundary (Vec2 (1 / 2) 1)%R
  = scale4 (Vec4 (1 / 2) 0 (1 / 2) 1)%R
           (NoAntiAliasing.scissorMask ExactSample.block ExactSample.boundary).
Proof.
  apply (proj1 (proj2 (proj2
           (gradient_boundary_is_half_blend ExactSample.block
              eq_refl eq_refl eq_refl eq_refl)))).
  - reflexivity.
  - exact sdroundrect_exact_boundary.
Defined.

(** In single precision the same scenario evaluates to the same colour: the
    point (20, 5) lies on the edge, the scissor and the stroke coverage are
    1 there. *)
Example gradient_boundary_binary32 :
  NoAntiAliasing.sdroundrect (Sample.block 0 0) Sample.boundary = Sample.b32 0 /\
  NoAntiAliasing.fragmentShaderNoAntiAliasing
    (Sample.block 0 0) Sample.checker Sample.boundary Sample.midStroke
  = Vec4 fhalf (Sample.b32 0) fhalf (Sample.b32 1) /\
  AntiAliasing.fragmentShaderAntiAliasing
    (Sample.block 0 0) Sample.checker Sample.boundary Sample.midStroke
  = Vec4 fhalf (Sample.b32 0) fhalf (Sample.b32 1).
Proof.
  split; [vm_compute; reflexivity|].
  split; vm_compute; reflexivity.
Qed.

(** In single precision the blend at the edge is one half as well: a signed
    distance that compares equal to zero is +0 or -0, and every operation of
    the blend is exact on these inputs. *)
Lemma blend_at_boundary_binary32 (uniforms : FragmentUniformBlock binary32)
    (sd : binary32) :
  feather uniforms = Sample.b32 2 ->
  innerCol uniforms = Vec4 (Sample.b32 1) (Sample.b32 0) (Sample.b32 0) (Sample.b32 1) ->
  outerCol uniforms = Vec4 (Sample.b32 0) (Sample.b32 0) (Sample.b32 1) (Sample.b32 1) ->
  (sd == fofZ 0)%glsl = true ->
  clamp ((feather uniforms * fhalf + sd) / feather uniforms)%glsl (fofZ 0) (fofZ 1)
  = fhalf /\
  gradientColor uniforms sd = Vec4 fhalf (Sample.b32 0) fhalf (Sample.b32 1).
Proof.
  intros Hfeather Hinner Houter Hsd.
  unfold gradientColor. rewrite Hfeather, Hinner, Houter.
  destruct sd as [s | s | | s m e].
  - destruct s; split; vm_compute; reflexivity.
  - destruct s; discriminate Hsd.
  - discriminate Hsd.
  - destruct s; discriminate Hsd.
Qed.

(** ** The vertex body *)

(** Whatever the operations of [float] are, the varyings are the attributes
    and the matrix multiplies the normalized position from the left. *)
Lemma vertex_main_outputs (F : Type) (HF : GLFloat F)
    (uniforms : VertexUniformBlock F) (pos tcoord : vec2 F) :
  VertexShader.fpos (VertexShader.main uniforms pos tcoord) = pos /\
  VertexShader.ftcoord (VertexShader.main uniforms pos tcoord) = tcoord /\
  VertexShader.gl_Position (VertexShader.main uniforms pos tcoord)
  = mat4_mul (matrix uniforms)
      (Vec4 (fofZ 2 * x2 pos / x2 (viewSize uniforms) - fofZ 1)%glsl
            (fofZ 1 - fofZ 2 * y2 pos / y2 (viewSize uniforms))%glsl
            (fofZ 0) (fofZ 1)).
Proof. split; [|split]; reflexivity. Qed.

(** C9, as stated, fails where the arithmetic overflows: with the identity
    matrix and the finite, non-zero view size (2^127, 2^127) in single
    precision, the position (viewSize.x, viewSize.y) is not sent to
    matrix * (1, -1, 0, 1): doubling 2^127 gives infinity and the result has
    no number left in it. *)
Lemma viewSize_corner_overflows :
  (x2 (viewSize Sample.hugeViewport) == fofZ 0)%glsl = false /\
  (y2 (viewSize Sample.hugeViewport) == fofZ 0)%glsl = false /\
  VertexShader.gl_Position
    (VertexShader.main Sample.hugeViewport (viewSize Sample.hugeViewport)
       (Vec2 (Sample.b32 0) (Sample.b32 0)))
  = Vec4 S754_nan S754_nan S754_nan S754_nan /\
  mat4_mul (matrix Sample.hugeViewport)
    (Vec4 (Sample.b32 1) (Sample.b32 (-1)) (Sample.b32 0) (Sample.b32 1))
  = Vec4 (Sample.b32 1) (Sample.b32 (-1)) (Sample.b32 0) (Sample.b32 1) /\
  VertexShader.gl_Position
    (VertexShader.main Sample.hugeViewport (viewSize Sample.hugeViewport)
       (Vec2 (Sample.b32 0) (Sample.b32 0)))
  <> mat4_mul (matrix Sample.hugeViewport)
       (Vec4 (Sample.b32 1) (Sample.b32 (-1)) (Sample.b32 0) (Sample.b32 1)).
Proof.
  split; [vm_compute; reflexivity|].
  split; [vm_compute; reflexivity|].
  split; [vm_compute; reflexivity|].
  split; [vm_compute; reflexivity|].
  vm_compute. discriminate.
Qed.

(** In single precision the pixel origin is normalized to (-1, 1) for every
    view size whose components are neither zero nor NaN: 2 * 0 is 0, 0
    over such a number is a zero, and 0 - 1 and 1 - 0 are exact. *)
Lemma origin_normalized_binary32 (v : binary32) :
  (v == fofZ 0)%glsl = false -> (v == v)%glsl = true ->
  (fofZ 2 * Sample.b32 0 / v - fofZ 1)%glsl = Sample.b32 (-1) /\
  (fofZ 1 - fofZ 2 * Sample.b32 0 / v)%glsl = Sample.b32 1.
Proof.
  intros Hzero Hnan.
  destruct v as [sv | sv | | sv m e].
  - destruct sv; discriminate Hzero.
  - destruct sv; split; vm_compute; reflexivity.
  - discriminate Hnan.
  - change (fofZ 2 * Sample.b32 0 / S754_finite sv m e)%glsl
      with (S754_zero (xorb false sv)).
    destruct sv; split; vm_compute; reflexivity.
Qed.

(** C9 (amended): whatever the operations of [float] are, [gl_Position] is
    matrix * (2*pos.x/viewSize.x - 1, 1 - 2*pos.y/viewSize.y, 0, 1), the
    matrix applied after the normalization.  In single precision the pixel
    origin is normalized to (-1, 1) for every view size with components
    that are neither zero nor NaN.  In exact arithmetic, for a view size
    with non-zero components, the origin is normalized to (-1, 1) and the
    pixel (viewSize.x, viewSize.y) to (1, -1). *)
Theorem vertex_position_normalizes_then_transforms :
  (forall (F : Type) (HF : GLFloat F) (uniforms : VertexUniformBlock F)
          (pos tcoord : vec2 F),
     VertexShader.gl_Position (VertexShader.main uniforms pos tcoord)
     = mat4_mul (matrix uniforms)
         (Vec4 (fofZ 2 * x2 pos / x2 (viewSize uniforms) - fofZ 1)%glsl
               (fofZ 1 - fofZ 2 * y2 pos / y2 (viewSize uniforms))%glsl
               (fofZ 0) (fofZ 1))) /\
  (forall (uniforms : VertexUniformBlock binary32) (tcoord : vec2 binary32),
     (x2 (viewSize uniforms) == fofZ 0)%glsl = false ->
     (x2 (viewSize uniforms) == x2 (viewSize uniforms))%glsl = true ->
     (y2 (viewSize uniforms) == fofZ 0)%glsl = false ->
     (y2 (viewSize uniforms) == y2 (viewSize uniforms))%glsl = true ->
     VertexShader.gl_Position
       (VertexShader.main uniforms (Vec2 (Sample.b32 0) (Sample.b32 0)) tcoord)
     = mat4_mul (matrix uniforms)
         (Vec4 (Sample.b32 (-1)) (Sample.b32 1) (Sample.b32 0) (Sample.b32 1))) /\
  (forall (uniforms : VertexUniformBlock R) (tcoord : vec2 R),
     x2 (viewSize uniforms) <> 0%R -> y2 (viewSize uniforms) <> 0%R ->
     VertexShader.gl_Position (VertexShader.main uniforms (Vec2 0%R 0%R) tcoord)
     = mat4_mul (matrix uniforms) (Vec4 (-1)%R 1%R 0%R 1%R) /\
     VertexShader.gl_Position (VertexShader.main uniforms (viewSize uniforms) tcoord)
     = mat4_mul (matrix uniforms) (Vec4 1%R (-1)%R 0%R 1%R)).
Proof.
  split; [|split].
  - intros F HF uniforms pos tcoord. reflexivity.
  - intros uniforms tcoord Hx0 Hxn Hy0 Hyn.
    unfold VertexShader.main. cbv zeta. cbn [VertexShader.gl_Position x2 y2].
    destruct (origin_normalized_binary32 _ Hx0 Hxn) as [Hx _].
    destruct (origin_normalized_binary32 _ Hy0 Hyn) as [_ Hy].
    rewrite Hx, Hy. reflexivity.
  - intros uniforms tcoord Hx Hy.
    unfold VertexShader.main. cbv zeta. cbn [VertexShader.gl_Position].
    split; f_equal; exact_ops; f_equal; field; assumption.
Qed.

Lemma vertex_position_normalizes_then_transforms_witness :
  VertexShader.gl_Position
    (VertexShader.main Sample.viewport (Vec2 (Sample.b32 0) (Sample.b32 0))
       (Vec2 (Sample.b32 0) (Sample.b32 0)))
  = mat4_mul (matrix Sample.viewport)
      (Vec4 (Sample.b32 (-1)) (Sample.b32 1) (Sample.b32 0) (Sample.b32 1)) /\
  VertexShader.gl_Position
    (VertexShader.main ExactSample.viewport (Vec2 800 600)%R (Vec2 0 0)%R)
  = mat4_mul ExactSample.identity4 (Vec4 1%R (-1)%R 0%R 1%R).
Proof.
  split.
  - apply (proj1 (proj2 vertex_position_normalizes_then_transforms) Sample.viewport
             (Vec2 (Sample.b32 0) (Sample.b32 0)));
      vm_compute; reflexivity.
  - apply (proj2 (proj2 (proj2 vertex_position_normalizes_then_transforms)
                    ExactSample.viewport (Vec2 0 0)%R
                    ltac:(simpl; lra) ltac:(simpl; lra))).
Defined.

(** In single precision an 800 x 600 viewport sends its origin to (-1, 1)
    and its far corner to (1, -1). *)
Example viewport_corners_binary32 :
  VertexShader.gl_Position
    (VertexShader.main Sample.viewport (Vec2 (Sample.b32 0) (Sample.b32 0))
       (Vec2 (Sample.b32 0) (Sample.b32 0)))
  = Vec4 (Sample.b32 (-1)) (Sample.b32 1) (Sample.b32 0) (Sample.b32 1) /\
  VertexShader.gl_Position
    (VertexShader.main Sample.viewport (viewSize Sample.viewport)
       (Vec2 (Sample.b32 0) (Sample.b32 0)))
  = Vec4 (Sample.b32 1) (Sample.b32 (-1)) (Sample.b32 0) (Sample.b32 1).
Proof. split; vm_compute; reflexivity. Qed.

(** ** The frame the session opens *)

(** Whatever the operations of [float] are, [drawNanovg] opens exactly one
    frame, with pixel ratio 2 and both framebuffer sizes divided by it, and
    counts the frame. *)
Lemma drawNanovg_frame (F : Type) (HF : GLFloat F)
    (s : NanovgSession.State) (clock : NanovgSession.Clock F)
    (framebuffferWidth framebufferHeight : F) :
  NanovgSession.framesOpened
    (snd (NanovgSession.drawNanovg s clock framebuffferWidth framebufferHeight))
  = [((framebuffferWidth / fofZ 2)%glsl, (framebufferHeight / fofZ 2)%glsl, fofZ 2)] /\
  NanovgSession.times_
    (fst (NanovgSession.drawNanovg s clock framebuffferWidth framebufferHeight))
  = NanovgSession.wrap32 (NanovgSession.times_ s + 1).
Proof. split; reflexivity. Qed.

(** C8, as stated, fails: the frame's size is the framebuffer size over the
    constant 2, not over every positive pixel ratio, and a float quotient
    is not always exact.  A 1920 x 1080 framebuffer gives a 960 x 540 frame
    with ratio 2, which is not 1920 / 3 wide; and the smallest positive
    float 2^-149 as framebuffer size gives a frame of size 0, which times
    the ratio does not give 2^-149 back. *)
Lemma logical_size_not_over_every_ratio :
  NanovgSession.framesOpened
    (snd (NanovgSession.drawNanovg Sample.session0 Sample.clock0
            (Sample.b32 1920) (Sample.b32 1080)))
  = [(Sample.b32 960, Sample.b32 540, Sample.b32 2)] /\
  (fofZ 0 <? Sample.b32 3)%glsl = true /\
  (Sample.b32 1920 / Sample.b32 3)%glsl <> Sample.b32 960 /\
  NanovgSession.framesOpened
    (snd (NanovgSession.drawNanovg Sample.session0 Sample.clock0
            Sample.tiny Sample.tiny))
  = [(Sample.b32 0, Sample.b32 0, Sample.b32 2)] /\
  (Sample.b32 0 * Sample.b32 2)%glsl <> Sample.tiny /\
  ~ (forall (pixelRatio viewportWidth viewportHeight : binary32),
       (fofZ 0 <? pixelRatio)%glsl = true ->
       NanovgSession.framesOpened
         (snd (NanovgSession.drawNanovg Sample.session0 Sample.clock0
                 viewportWidth viewportHeight))
       = [((viewportWidth / pixelRatio)%glsl, (viewportHeight / pixelRatio)%glsl,
           pixelRatio)]).
Proof.
  split; [vm_compute; reflexivity|].
  split; [vm_compute; reflexivity|].
  split; [vm_compute; discriminate|].
  split; [vm_compute; reflexivity|].
  split; [vm_compute; discriminate|].
  intros Hall.
  specialize (Hall (Sample.b32 3) (Sample.b32 1920) (Sample.b32 1080) eq_refl).
  vm_compute in Hall. discriminate Hall.
Qed.

(** C8 (amended): whatever the operations of [float] are, for every
    framebuffer width and height [drawNanovg] opens exactly one frame; the
    pixel ratio it passes is the constant 2 and the logical size it passes
    is the float quotient of the framebuffer size by that 2, for the width
    and for the height.  In exact arithmetic the quotient loses nothing:
    the logical size times the ratio is the framebuffer size again. *)
Theorem logical_size_is_viewport_over_two :
  (forall (F : Type) (HF : GLFloat F) (s : NanovgSession.State)
          (clock : NanovgSession.Clock F) (viewportWidth viewportHeight : F),
     NanovgSession.framesOpened
       (snd (NanovgSession.drawNanovg s clock viewportWidth viewportHeight))
     = [((viewportWidth / fofZ 2)%glsl, (viewportHeight / fofZ 2)%glsl, fofZ 2)]) /\
  (forall (s : NanovgSession.State) (clock : NanovgSession.Clock R)
          (viewportWidth viewportHeight : R),
     map (fun frame : R * R * R =>
            let '(width, height, pixelRatio) := frame in
            ((width * pixelRatio)%R, (height * pixelRatio)%R, pixelRatio))
         (NanovgSession.framesOpened
            (snd (NanovgSession.drawNanovg s clock viewportWidth viewportHeight)))
     = [(viewportWidth, viewportHeight, 2%R)]).
Proof.
  split.
  - intros F HF s clock viewportWidth viewportHeight.
    exact (proj1 (drawNanovg_frame F HF s clock viewportWidth viewportHeight)).
  - intros s clock viewportWidth viewportHeight.
    rewrite (proj1 (drawNanovg_frame R GLFloat_R s clock viewportWidth viewportHeight)).
    cbn [map]. exact_ops. f_equal. f_equal. f_equal; field.
Qed.

(** In single precision a 1920 x 1080 framebuffer gives a 960 x 540 frame. *)
Example drawNanovg_binary32 :
  NanovgSession.framesOpened
    (snd (NanovgSession.drawNanovg
            {| NanovgSession.times_ := 0; NanovgSession.mouseX := 0;
               NanovgSession.mouseY := 0 |}
            {| NanovgSession.start := Sample.b32 0; NanovgSession.finish := Sample.b32 0;
               NanovgSession.deltaSeconds := Sample.b32 0 |}
            (Sample.b32 1920) (Sample.b32 1080)))
  = [(Sample.b32 960, Sample.b32 540, Sample.b32 2)].
Proof. vm_compute. reflexivity. Qed.

(** * Further properties of the shader bodies *)

(** ** More exact arithmetic *)

Section MoreExact.
Local Open Scope R_scope.

Lemma clamp_R_above (a lo hi : R) : hi <= a -> lo <= hi -> clamp a lo hi = hi.
Proof.
  intros Ha Hlh. unfold clamp. rewrite min_R, max_R.
  unfold Rmin, Rmax.
  destruct (Rle_dec a lo); destruct (Rle_dec _ hi); lra.
Qed.

Lemma scissorMask_exact (uniforms : FragmentUniformBlock R) (p : vec2 R) :
  let q := xy (mat3_mul (scissorMat uniforms) (vec3_of p 1)) in
  NoAntiAliasing.scissorMask uniforms p
  = clamp (1 / 2 - (Rabs (x2 q) - x2 (scissorExt uniforms)) * x2 (scissorScale uniforms))
          0 1
    * clamp (1 / 2 - (Rabs (y2 q) - y2 (scissorExt uniforms)) * y2 (scissorScale uniforms))
            0 1.
Proof. reflexivity. Qed.

Lemma scissorMask_inUnit (uniforms : FragmentUniformBlock R) (p : vec2 R) :
  inUnit (NoAntiAliasing.scissorMask uniforms p).
Proof.
  pose proof (scissorMask_exact uniforms p) as Hm. cbv zeta in Hm. rewrite Hm.
  match goal with
  | |- inUnit (clamp ?a 0 1 * clamp ?b 0 1) =>
      pose proof (clamp_R_range a 0 1 ltac:(lra)) as Ha;
      pose proof (clamp_R_range b 0 1 ltac:(lra)) as Hb
  end.
  unfold inUnit. split; nra.
Qed.

Lemma strokeMask_exact (uniforms : FragmentUniformBlock R) (ftcoord : vec2 R) :
  AntiAliasing.strokeMask uniforms ftcoord
  = Rmin 1 ((1 - Rabs (x2 ftcoord * 2 - 1)) * strokeMult uniforms) * Rmin 1 (y2 ftcoord).
Proof. unfold AntiAliasing.strokeMask. rewrite !min_R. reflexivity. Qed.

Lemma strokeMask_inUnit (uniforms : FragmentUniformBlock R) (ftcoord : vec2 R) :
  0 <= strokeMult uniforms -> 0 <= x2 ftcoord <= 1 -> 0 <= y2 ftcoord ->
  inUnit (AntiAliasing.strokeMask uniforms ftcoord).
Proof.
  intros Hm Hx Hy. rewrite strokeMask_exact.
  assert (Habs : 0 <= 1 - Rabs (x2 ftcoord * 2 - 1) <= 1).
  { unfold Rabs. destruct (Rcase_abs _); lra. }
  assert (Ha : 0 <= Rmin 1 ((1 - Rabs (x2 ftcoord * 2 - 1)) * strokeMult uniforms) <= 1).
  { unfold Rmin. destruct (Rle_dec _ _); [lra|]. split; [nra|lra]. }
  assert (Hb : 0 <= Rmin 1 (y2 ftcoord) <= 1).
  { unfold Rmin. destruct (Rle_dec _ _); lra. }
  unfold inUnit. split; nra.
Qed.

Lemma sdroundrect_exact (uniforms : FragmentUniformBlock R) (pt : vec2 R) :
  let dx := Rabs (x2 pt) - (x2 (extent uniforms) - radius uniforms) in
  let dy := Rabs (y2 pt) - (y2 (extent uniforms) - radius uniforms) in
  NoAntiAliasing.sdroundrect uniforms pt
  = Rmin (Rmax dx dy) 0
    + sqrt (Rmax dx 0 * Rmax dx 0 + Rmax dy 0 * Rmax dy 0) - radius uniforms.
Proof.
  cbv zeta. unfold NoAntiAliasing.sdroundrect. cbv zeta.
  unfold sub2, abs2, vec2_splat, max2s, length2. exact_ops.
  rewrite !min_R, !max_R. reflexivity.
Qed.

Lemma sqrt_square_0 (a : R) : 0 <= a -> sqrt (a * a + 0 * 0) = a.
Proof.
  intros Ha. replace (a * a + 0 * 0) with (Rsqr a) by (unfold Rsqr; lra).
  apply sqrt_Rsqr. exact Ha.
Qed.

Lemma sqrt_0_square (a : R) : 0 <= a -> sqrt (0 * 0 + a * a) = a.
Proof.
  intros Ha. replace (0 * 0 + a * a) with (Rsqr a) by (unfold Rsqr; lra).
  apply sqrt_Rsqr. exact Ha.
Qed.

Lemma mix_exact (a b t : R) : mix a b t = a * (1 - t) + b * t.
Proof. reflexivity. Qed.

Lemma mix_between (a b t : R) : 0 <= t <= 1 -> between a b (mix a b t).
Proof.
  intros Ht. unfold between. rewrite mix_exact.
  unfold Rmin, Rmax. destruct (Rle_dec a b); split; nra.
Qed.

Lemma scale4_zero_l (a : R) : scale4 (vec4_splat 0) a = vec4_splat 0.
Proof. unfold scale4, vec4_splat. exact_ops. f_equal; lra. Qed.

Lemma scale4_mul4 (c i : vec4 R) (a : R) :
  scale4 (mul4 c i) a = mul4 (scale4 c a) i.
Proof. unfold scale4, mul4. exact_ops. f_equal; lra. Qed.

Lemma inUnit4_zero : inUnit4 (vec4_splat 0).
Proof. unfold inUnit4, inUnit, vec4_splat. cbn [x4 y4 z4 w4]. lra. Qed.

Lemma inUnit4_scale (c : vec4 R) (s : R) : inUnit4 c -> inUnit s -> inUnit4 (scale4 c s).
Proof.
  unfold inUnit4, inUnit, scale4. exact_ops. intros (Hx & Hy & Hz & Hw) Hs.
  repeat split; nra.
Qed.

Lemma inUnit4_mul (a b : vec4 R) : inUnit4 a -> inUnit4 b -> inUnit4 (mul4 a b).
Proof.
  unfold inUnit4, inUnit, mul4. exact_ops.
  intros (Hx & Hy & Hz & Hw) (Hx' & Hy' & Hz' & Hw').
  repeat split; nra.
Qed.

Lemma inUnit4_texel (m : TexChannel) (c : vec4 R) : inUnit4 c -> inUnit4 (texel m c).
Proof.
  unfold inUnit4, inUnit. intros (Hx & Hy & Hz & Hw).
  destruct m; unfold texel, vec4_of, scale3, xyz, vec4_splat; exact_ops;
    repeat split; nra.
Qed.

Lemma inUnit_mix (a b t : R) : inUnit a -> inUnit b -> inUnit t -> inUnit (mix a b t).
Proof. unfold inUnit, mix. exact_ops. intros Ha Hb Ht. split; nra. Qed.

Lemma inUnit4_gradient (uniforms : FragmentUniformBlock R) (sd : R) :
  inUnit4 (innerCol uniforms) -> inUnit4 (outerCol uniforms) ->
  inUnit4 (gradientColor uniforms sd).
Proof.
  intros (Hx & Hy & Hz & Hw) (Hx' & Hy' & Hz' & Hw').
  unfold gradientColor. cbv zeta.
  match goal with
  | |- inUnit4 (mix4 _ _ (clamp ?q _ _)) =>
      pose proof (clamp_R_range q 0 1 ltac:(lra)) as Hd
  end.
  unfold inUnit4, mix4. cbn [x4 y4 z4 w4].
  repeat split; apply inUnit_mix; assumption.
Qed.

Lemma mat4_mul_identity (v : vec4 R) : mat4_mul ExactSample.identity4 v = v.
Proof.
  destruct v as [a b c d]. unfold mat4_mul, ExactSample.identity4.
  cbn [m4c0 m4c1 m4c2 m4c3]. exact_ops. f_equal; lra.
Qed.

Lemma gradient_fragment_exact (uniforms : FragmentUniformBlock R)
    (textureUnit : sampler2D R) (fpos ftcoord : vec2 R) :
  type uniforms = 0%Z ->
  NoAntiAliasing.fragmentShaderNoAntiAliasing uniforms textureUnit fpos ftcoord
  = scale4 (gradientColor uniforms
              (NoAntiAliasing.sdroundrect uniforms (paintSpacePoint uniforms fpos)))
           (NoAntiAliasing.scissorMask uniforms fpos).
Proof.
  intros Htype. rewrite fragmentShaderNoAntiAliasing_dispatch. cbv zeta.
  destruct (NoAntiAliasing.scissorMask uniforms fpos == fofZ 0)%glsl eqn:Hs.
  - apply feqb_R_true in Hs. rewrite Hs. apply scale4_by_zero.
  - rewrite Htype. reflexivity.
Qed.

Lemma gradientColor_saturates (uniforms : FragmentUniformBlock R) (sd : R) :
  0 < feather uniforms ->
  (sd <= - (feather uniforms / 2) -> gradientColor uniforms sd = innerCol uniforms) /\
  (feather uniforms / 2 <= sd -> gradientColor uniforms sd = outerCol uniforms).
Proof.
  intros Hf. unfold gradientColor. cbv zeta. exact_ops.
  set (q := (feather uniforms * (1 / 2) + sd) / feather uniforms).
  assert (Hq : q * feather uniforms = feather uniforms * (1 / 2) + sd).
  { unfold q. field. lra. }
  split; intros Hsd.
  - rewrite clamp_R_below by nra.
    destruct (innerCol uniforms) as [r g b a], (outerCol uniforms) as [r' g' b' a'].
    unfold mix4. cbn [x4 y4 z4 w4]. rewrite !mix_exact. f_equal; lra.
  - rewrite clamp_R_above by nra.
    destruct (innerCol uniforms) as [r g b a], (outerCol uniforms) as [r' g' b' a'].
    unfold mix4. cbn [x4 y4 z4 w4]. rewrite !mix_exact. f_equal; lra.
Qed.
End MoreExact.

(** ** Stroke coverage *)

(** X1: in exact arithmetic, for a texture coordinate with x in [0,1] and
    y >= 0 and a non-negative [strokeMult], [strokeMask] is a coverage
    between 0 and 1, and the non-anti-aliased body's copy of the helper
    computes the same value. *)
Theorem strokeMask_in_unit_interval :
  forall (uniforms : FragmentUniformBlock R) (ftcoord : vec2 R),
    (0 <= strokeMult uniforms)%R ->
    (0 <= x2 ftcoord <= 1)%R -> (0 <= y2 ftcoord)%R ->
    (0 <= AntiAliasing.strokeMask uniforms ftcoord <= 1)%R /\
    NoAntiAliasing.strokeMask uniforms ftcoord = AntiAliasing.strokeMask uniforms ftcoord.
Proof.
  intros uniforms ftcoord Hm Hx Hy. split; [|reflexivity].
  exact (strokeMask_inUnit uniforms ftcoord Hm Hx Hy).
Qed.

Lemma strokeMask_in_unit_interval_witness :
  (0 <= AntiAliasing.strokeMask ExactSample.block (Vec2 (1 / 2) 1)%R <= 1)%R.
Proof.
  apply (proj1 (strokeMask_in_unit_interval ExactSample.block (Vec2 (1 / 2) 1)%R
                  ltac:(simpl; lra) ltac:(simpl; lra) ltac:(simpl; lra))).
Defined.

(** X2: in exact arithmetic, [strokeMask] is symmetric about the centre line
    x = 0.5 of the stroke and vanishes on its two edges x = 0 and x = 1 and
    at y = 0, whatever [strokeMult] is. *)
Theorem strokeMask_symmetric_zero_at_edges :
  forall (uniforms : FragmentUniformBlock R) (x y : R),
    AntiAliasing.strokeMask uniforms (Vec2 (1 - x)%R y)
    = AntiAliasing.strokeMask uniforms (Vec2 x y) /\
    AntiAliasing.strokeMask uniforms (Vec2 0%R y) = 0%R /\
    AntiAliasing.strokeMask uniforms (Vec2 1%R y) = 0%R /\
    AntiAliasing.strokeMask uniforms (Vec2 x 0%R) = 0%R.
Proof.
  intros uniforms x y. rewrite !strokeMask_exact. cbn [x2 y2].
  split; [|split; [|split]].
  - replace ((1 - x) * 2 - 1)%R with (- (x * 2 - 1))%R by lra.
    rewrite Rabs_Ropp. reflexivity.
  - replace (Rabs (0 * 2 - 1)) with 1%R
      by (unfold Rabs; destruct (Rcase_abs _); lra).
    replace ((1 - 1) * strokeMult uniforms)%R with 0%R by lra.
    rewrite (Rmin_right 1 0) by lra. lra.
  - replace (1 * 2 - 1)%R with 1%R by lra. rewrite Rabs_R1.
    replace ((1 - 1) * strokeMult uniforms)%R with 0%R by lra.
    rewrite (Rmin_right 1 0) by lra. lra.
  - rewrite (Rmin_right 1 0) by lra. lra.
Qed.

(** ** The signed distance to the rounded rectangle *)

(** X3: in exact arithmetic, with dx = |pt.x| - (extent.x - radius) and
    dy = |pt.y| - (extent.y - radius), [sdroundrect] is max(dx, dy) - radius
    in the inner box (dx, dy <= 0), the distance |pt.x| - extent.x to the
    vertical side beside it (dx >= 0 >= dy), |pt.y| - extent.y above and
    below it, and the distance to the corner circle, sqrt(dx^2 + dy^2) -
    radius, in the corner region (dx, dy >= 0). *)
Theorem sdroundrect_by_region :
  forall (uniforms : FragmentUniformBlock R) (pt : vec2 R),
    let dx := (Rabs (x2 pt) - (x2 (extent uniforms) - radius uniforms))%R in
    let dy := (Rabs (y2 pt) - (y2 (extent uniforms) - radius uniforms))%R in
    ((dx <= 0)%R -> (dy <= 0)%R ->
       NoAntiAliasing.sdroundrect uniforms pt = (Rmax dx dy - radius uniforms)%R) /\
    ((0 <= dx)%R -> (dy <= 0)%R ->
       NoAntiAliasing.sdroundrect uniforms pt
       = (Rabs (x2 pt) - x2 (extent uniforms))%R) /\
    ((dx <= 0)%R -> (0 <= dy)%R ->
       NoAntiAliasing.sdroundrect uniforms pt
       = (Rabs (y2 pt) - y2 (extent uniforms))%R) /\
    ((0 <= dx)%R -> (0 <= dy)%R ->
       NoAntiAliasing.sdroundrect uniforms pt
       = (sqrt (dx * dx + dy * dy) - radius uniforms)%R).
Proof.
  intros uniforms pt dx dy.
  pose proof (sdroundrect_exact uniforms pt) as Hsd. cbv zeta in Hsd.
  fold dx dy in Hsd. rewrite Hsd. clear Hsd.
  split; [|split; [|split]]; intros Hx Hy.
  - rewrite (Rmax_right dx 0), (Rmax_right dy 0) by lra.
    rewrite Rmin_left by (apply Rmax_lub; lra).
    rewrite sqrt_square_0 by lra. lra.
  - rewrite (Rmax_left dx 0), (Rmax_right dy 0), (Rmax_left dx dy) by lra.
    rewrite Rmin_right by lra.
    rewrite sqrt_square_0 by lra. unfold dx. lra.
  - rewrite (Rmax_right dx 0), (Rmax_left dy 0), (Rmax_right dx dy) by lra.
    rewrite Rmin_right by lra.
    rewrite sqrt_0_square by lra. unfold dy. lra.
  - rewrite (Rmax_left dx 0), (Rmax_left dy 0) by lra.
    rewrite Rmin_right by (apply Rle_trans with dx; [lra | apply Rmax_l]).
    lra.
Qed.

Lemma sdroundrect_by_region_witness :
  NoAntiAliasing.sdroundrect ExactSample.block ExactSample.boundary
  = (Rabs 20 - 20)%R.
Proof.
  apply (proj1 (proj2 (sdroundrect_by_region ExactSample.block ExactSample.boundary))).
  - cbn [ExactSample.block ExactSample.boundary x2 y2 extent radius].
    rewrite Rabs_pos_eq by lra. lra.
  - cbn [ExactSample.block ExactSample.boundary x2 y2 extent radius].
    rewrite Rabs_pos_eq by lra. lra.
Defined.

(** ** The gradient away from the edge *)

(** X4: in exact arithmetic and for a positive feather, the gradient fill
    ([type] = 0) of the non-anti-aliased body is [innerCol] times the
    scissor mask where the signed distance is at most -feather/2, and
    [outerCol] times the scissor mask where it is at least feather/2; in
    between, every channel of the blended colour lies between the two
    colours' channels. *)
Theorem gradient_saturates :
  forall (uniforms : FragmentUniformBlock R) (textureUnit : sampler2D R)
         (fpos ftcoord : vec2 R),
    (0 < feather uniforms)%R -> type uniforms = 0%Z ->
    let sd := NoAntiAliasing.sdroundrect uniforms (paintSpacePoint uniforms fpos) in
    let scissor := NoAntiAliasing.scissorMask uniforms fpos in
    let out := NoAntiAliasing.fragmentShaderNoAntiAliasing
                 uniforms textureUnit fpos ftcoord in
    ((sd <= - (feather uniforms / 2))%R -> out = scale4 (innerCol uniforms) scissor) /\
    ((feather uniforms / 2 <= sd)%R -> out = scale4 (outerCol uniforms) scissor) /\
    (exists color : vec4 R,
       out = scale4 color scissor /\
       between (x4 (innerCol uniforms)) (x4 (outerCol uniforms)) (x4 color) /\
       between (y4 (innerCol uniforms)) (y4 (outerCol uniforms)) (y4 color) /\
       between (z4 (innerCol uniforms)) (z4 (outerCol uniforms)) (z4 color) /\
       between (w4 (innerCol uniforms)) (w4 (outerCol uniforms)) (w4 color)).
Proof.
  intros uniforms textureUnit fpos ftcoord Hf Htype. cbv zeta.
  rewrite (gradient_fragment_exact uniforms textureUnit fpos ftcoord Htype).
  destruct (gradientColor_saturates uniforms
              (NoAntiAliasing.sdroundrect uniforms (paintSpacePoint uniforms fpos)) Hf)
    as [Hin Hout].
  split; [|split].
  - intros Hsd. rewrite (Hin Hsd). reflexivity.
  - intros Hsd. rewrite (Hout Hsd). reflexivity.
  - eexists. split; [reflexivity|].
    unfold gradientColor. cbv zeta.
    match goal with
    | |- context [clamp ?q (fofZ 0) (fofZ 1)] =>
        pose proof (clamp_R_range q 0 1 ltac:(lra)) as Hd
    end.
    unfold mix4. cbn [x4 y4 z4 w4].
    split; [|split; [|split]]; apply mix_between; exact Hd.
Qed.

Lemma sdroundrect_exact_centre :
  NoAntiAliasing.sdroundrect ExactSample.block
    (paintSpacePoint ExactSample.block (Vec2 0 0)%R) = (-20)%R.
Proof.
  pose proof (sdroundrect_exact ExactSample.block
                (paintSpacePoint ExactSample.block (Vec2 0 0)%R)) as Hsd.
  cbv zeta in Hsd. rewrite Hsd. clear Hsd.
  unfold paintSpacePoint, xy, mat3_mul, vec3_of, ExactSample.block,
    ExactSample.identity3.
  cbn [paintMat extent radius m3c0 m3c1 m3c2]. exact_ops.
  replace (1 * 0 + 0 * 0 + 0 * 1)%R with 0%R by lra.
  replace (0 * 0 + 1 * 0 + 0 * 1)%R with 0%R by lra.
  rewrite Rabs_R0.
  replace (0 - (20 - 10))%R with (-10)%R by lra.
  rewrite (Rmax_right (-10) 0) by lra.
  rewrite (Rmax_left (-10) (-10)) by lra.
  rewrite (Rmin_left (-10) 0) by lra.
  rewrite sqrt_square_0 by lra. lra.
Qed.

Lemma gradient_saturates_witness :
  NoAntiAliasing.fragmentShaderNoAntiAliasing
    ExactSample.block ExactSample.black (Vec2 0 0)%R (Vec2 0 0)%R
  = scale4 (innerCol ExactSample.block)
           (NoAntiAliasing.scissorMask ExactSample.block (Vec2 0 0)%R).
Proof.
  apply (proj1 (gradient_saturates ExactSample.block ExactSample.black
                  (Vec2 0 0)%R (Vec2 0 0)%R ltac:(simpl; lra) eq_refl)).
  rewrite sdroundrect_exact_centre. simpl. lra.
Defined.

(** ** Both sides of the scissor *)

(** X5: in exact arithmetic, at a point at least half a scaled unit inside
    the scissor on both axes the mask is exactly 1 in both bodies; at a
    point at least half a scaled unit beyond it on either axis both
    fragment functions return (0,0,0,0), whatever the paint is. *)
Theorem scissor_one_inside_transparent_beyond :
  forall (uniforms : FragmentUniformBlock R) (textureUnit : sampler2D R)
         (fpos ftcoord : vec2 R),
    (withinScissor uniforms fpos ->
       NoAntiAliasing.scissorMask uniforms fpos = 1%R /\
       AntiAliasing.scissorMask uniforms fpos = 1%R) /\
    (beyondScissor uniforms fpos ->
       NoAntiAliasing.fragmentShaderNoAntiAliasing uniforms textureUnit fpos ftcoord
       = Vec4 0%R 0%R 0%R 0%R /\
       AntiAliasing.fragmentShaderAntiAliasing uniforms textureUnit fpos ftcoord
       = Vec4 0%R 0%R 0%R 0%R).
Proof.
  intros uniforms textureUnit fpos ftcoord. split.
  - unfold withinScissor. cbv zeta. intros [Hx Hy].
    change (AntiAliasing.scissorMask uniforms fpos)
      with (NoAntiAliasing.scissorMask uniforms fpos).
    pose proof (scissorMask_exact uniforms fpos) as Hm. cbv zeta in Hm. rewrite Hm.
    rewrite !clamp_R_above by lra. split; lra.
  - intros Hout. destruct (scissorMask_beyond uniforms fpos Hout) as [Hno Haa].
    split.
    + rewrite fragmentShaderNoAntiAliasing_dispatch. cbv zeta.
      apply feqb_R_true in Hno. change (fofZ 0) with 0%R. rewrite Hno. reflexivity.
    + rewrite fragmentShaderAntiAliasing_dispatch. cbv zeta.
      apply feqb_R_true in Haa. change (fofZ 0) with 0%R. rewrite Haa. reflexivity.
Qed.

Lemma scissor_one_inside_transparent_beyond_witness :
  NoAntiAliasing.scissorMask ExactSample.block (Vec2 0 0)%R = 1%R /\
  AntiAliasing.scissorMask ExactSample.block (Vec2 0 0)%R = 1%R.
Proof.
  apply (proj1 (scissor_one_inside_transparent_beyond ExactSample.block
                  ExactSample.black (Vec2 0 0)%R (Vec2 0 0)%R)).
  unfold withinScissor, xy, mat3_mul, vec3_of, ExactSample.block, ExactSample.identity3.
  cbn [scissorMat scissorExt scissorScale m3c0 m3c1 m3c2]. exact_ops.
  replace (1 * 0 + 0 * 0 + 0 * 1)%R with 0%R by lra.
  replace (0 * 0 + 1 * 0 + 0 * 1)%R with 0%R by lra.
  rewrite Rabs_R0. split; lra.
Defined.

(** ** How the two bodies relate *)

(** X6: for [type] = 2 the two fragment bodies return the same colour,
    whatever the operations of [float], the texture and the other uniforms
    are: the image draw is not touched by anti-aliasing. *)
Theorem image_draw_same_in_both_bodies :
  forall (F : Type) (HF : GLFloat F) (uniforms : FragmentUniformBlock F)
         (textureUnit : sampler2D F) (fpos ftcoord : vec2 F),
    type uniforms = 2%Z ->
    AntiAliasing.fragmentShaderAntiAliasing uniforms textureUnit fpos ftcoord
    = NoAntiAliasing.fragmentShaderNoAntiAliasing uniforms textureUnit fpos ftcoord.
Proof.
  intros F HF uniforms textureUnit fpos ftcoord Htype.
  rewrite fragmentShaderAntiAliasing_dispatch, fragmentShaderNoAntiAliasing_dispatch.
  cbv zeta. rewrite Htype. reflexivity.
Qed.

Lemma image_draw_same_in_both_bodies_witness :
  AntiAliasing.fragmentShaderAntiAliasing
    (Sample.block 1 2) Sample.checker Sample.inside Sample.onEdge
  = NoAntiAliasing.fragmentShaderNoAntiAliasing
      (Sample.block 1 2) Sample.checker Sample.inside Sample.onEdge.
Proof.
  exact (image_draw_same_in_both_bodies binary32 GLFloat_binary32 (Sample.block 1 2)
           Sample.checker Sample.inside Sample.onEdge eq_refl).
Defined.

(** X7: in exact arithmetic, for [type] 0 or 1 the anti-aliased body returns
    (0,0,0,0) when the stroke coverage is below [strokeThr], and otherwise
    the colour of the non-anti-aliased body multiplied by the stroke
    coverage. *)
Theorem antialiased_is_coverage_times_plain :
  forall (uniforms : FragmentUniformBlock R) (textureUnit : sampler2D R)
         (fpos ftcoord : vec2 R),
    (type uniforms = 0 \/ type uniforms = 1)%Z ->
    AntiAliasing.fragmentShaderAntiAliasing uniforms textureUnit fpos ftcoord
    = if (AntiAliasing.strokeMask uniforms ftcoord <? strokeThr uniforms)%glsl
      then Vec4 0%R 0%R 0%R 0%R
      else scale4 (NoAntiAliasing.fragmentShaderNoAntiAliasing
                     uniforms textureUnit fpos ftcoord)
                  (AntiAliasing.strokeMask uniforms ftcoord).
Proof.
  intros uniforms textureUnit fpos ftcoord Htype.
  rewrite fragmentShaderAntiAliasing_dispatch, fragmentShaderNoAntiAliasing_dispatch.
  cbv zeta.
  change (AntiAliasing.scissorMask uniforms fpos)
    with (NoAntiAliasing.scissorMask uniforms fpos).
  change (texChannelAA (texType uniforms)) with (texChannelNoAA (texType uniforms)).
  destruct (NoAntiAliasing.scissorMask uniforms fpos == fofZ 0)%glsl.
  - rewrite scale4_zero_l.
    destruct (AntiAliasing.strokeMask uniforms ftcoord <? strokeThr uniforms)%glsl;
      reflexivity.
  - destruct Htype as [Ht | Ht]; rewrite Ht;
      cbn [paintKindAA paintKindNoAA Z.eqb Pos.eqb];
      destruct (AntiAliasing.strokeMask uniforms ftcoord <? strokeThr uniforms)%glsl;
      cbn [branchAA branchNoAA]; try reflexivity.
    rewrite scale4_mul4. reflexivity.
Qed.

Lemma antialiased_is_coverage_times_plain_witness :
  AntiAliasing.fragmentShaderAntiAliasing
    ExactSample.block ExactSample.black ExactSample.boundary (Vec2 (1 / 2) 1)%R
  = if (AntiAliasing.strokeMask ExactSample.block (Vec2 (1 / 2) 1)%R
          <? strokeThr ExactSample.block)%glsl
    then Vec4 0%R 0%R 0%R 0%R
    else scale4 (NoAntiAliasing.fragmentShaderNoAntiAliasing
                   ExactSample.block ExactSample.black ExactSample.boundary
                   (Vec2 (1 / 2) 1)%R)
                (AntiAliasing.strokeMask ExactSample.block (Vec2 (1 / 2) 1)%R).
Proof.
  exact (antialiased_is_coverage_times_plain ExactSample.block ExactSample.black
           ExactSample.boundary (Vec2 (1 / 2) 1)%R (or_introl eq_refl)).
Defined.

(** X8: with [texType] = 2, every branch that samples the texture, in either
    body, replaces the sample (r, g, b, a) by (r, r, r, r) before the
    scissor and stroke factors and the product with [innerCol], whatever
    the operations of [float] are. *)
Theorem texType_2_spreads_first_channel :
  forall (F : Type) (HF : GLFloat F) (uniforms : FragmentUniformBlock F)
         (textureUnit : sampler2D F) (fpos ftcoord : vec2 F),
    texType uniforms = 2%Z ->
    textureBranchesApply uniforms textureUnit fpos ftcoord
      (fun color => Vec4 (x4 color) (x4 color) (x4 color) (x4 color)).
Proof.
  intros F HF uniforms textureUnit fpos ftcoord Htex.
  apply (textureBranches_texel uniforms textureUnit fpos ftcoord SINGLE_CHANNEL).
  rewrite Htex. reflexivity.
Qed.

Lemma texType_2_spreads_first_channel_witness :
  textureBranchesApply (Sample.block 2 1) Sample.checker Sample.inside Sample.midStroke
    (fun color => Vec4 (x4 color) (x4 color) (x4 color) (x4 color)).
Proof.
  exact (texType_2_spreads_first_channel binary32 GLFloat_binary32 (Sample.block 2 1)
           Sample.checker Sample.inside Sample.midStroke eq_refl).
Defined.

(** ** The colour stays a colour *)

(** X9: in exact arithmetic, for a non-zero feather and an extent with
    non-zero components (so that no division is by zero), when [innerCol],
    [outerCol] and every texel have all four channels in [0,1], so has the
    result of the non-anti-aliased body, for every [type] and [texType];
    the same holds for the anti-aliased body when moreover [strokeMult] >= 0
    and the texture coordinate has x in [0,1] and y >= 0. *)
Theorem fragment_colour_in_unit_cube :
  forall (uniforms : FragmentUniformBlock R) (textureUnit : sampler2D R)
         (fpos ftcoord : vec2 R),
    feather uniforms <> 0%R ->
    x2 (extent uniforms) <> 0%R -> y2 (extent uniforms) <> 0%R ->
    inUnit4 (innerCol uniforms) -> inUnit4 (outerCol uniforms) ->
    (forall coord : vec2 R, inUnit4 (textureUnit coord)) ->
    inUnit4 (NoAntiAliasing.fragmentShaderNoAntiAliasing
               uniforms textureUnit fpos ftcoord) /\
    ((0 <= strokeMult uniforms)%R -> (0 <= x2 ftcoord <= 1)%R -> (0 <= y2 ftcoord)%R ->
     inUnit4 (AntiAliasing.fragmentShaderAntiAliasing
                uniforms textureUnit fpos ftcoord)).
Proof.
  intros uniforms textureUnit fpos ftcoord _ _ _ Hin Hout Htex.
  pose proof (scissorMask_inUnit uniforms fpos) as Hs.
  split.
  - rewrite fragmentShaderNoAntiAliasing_dispatch. cbv zeta.
    destruct (_ == _)%glsl; [apply inUnit4_zero|].
    destruct (paintKindNoAA (type uniforms)); cbn [branchNoAA].
    + apply inUnit4_scale; [apply inUnit4_gradient; assumption | exact Hs].
    + apply inUnit4_mul; [|exact Hin].
      apply inUnit4_scale; [apply inUnit4_texel, Htex | exact Hs].
    + apply inUnit4_mul; [|exact Hin].
      apply inUnit4_scale; [apply inUnit4_texel, Htex | exact Hs].
  - intros Hm Hx Hy.
    pose proof (strokeMask_inUnit uniforms ftcoord Hm Hx Hy) as Ha.
    rewrite fragmentShaderAntiAliasing_dispatch. cbv zeta.
    change (AntiAliasing.scissorMask uniforms fpos)
      with (NoAntiAliasing.scissorMask uniforms fpos).
    destruct (_ == _)%glsl; [apply inUnit4_zero|].
    destruct (paintKindAA (type uniforms)).
    + destruct (_ <? _)%glsl; [apply inUnit4_zero|]. cbn [branchAA].
      apply inUnit4_scale; [|exact Ha].
      apply inUnit4_scale; [apply inUnit4_gradient; assumption | exact Hs].
    + destruct (_ <? _)%glsl; [apply inUnit4_zero|]. cbn [branchAA].
      apply inUnit4_mul; [|exact Hin].
      apply inUnit4_scale; [|exact Ha].
      apply inUnit4_scale; [apply inUnit4_texel, Htex | exact Hs].
    + cbn [branchAA]. apply inUnit4_mul; [|exact Hin].
      apply inUnit4_scale; [apply inUnit4_texel, Htex | exact Hs].
Qed.

Lemma sample_colours_inUnit :
  inUnit4 (innerCol ExactSample.block) /\ inUnit4 (outerCol ExactSample.block) /\
  (forall coord : vec2 R, inUnit4 (ExactSample.black coord)).
Proof.
  unfold inUnit4, inUnit, ExactSample.block, ExactSample.black.
  cbn [innerCol outerCol x4 y4 z4 w4]. repeat split; lra.
Qed.

Lemma fragment_colour_in_unit_cube_witness :
  inUnit4 (NoAntiAliasing.fragmentShaderNoAntiAliasing
             ExactSample.block ExactSample.black ExactSample.boundary (Vec2 (1 / 2) 1)%R).
Proof.
  apply (proj1 (fragment_colour_in_unit_cube ExactSample.block ExactSample.black
                  ExactSample.boundary (Vec2 (1 / 2) 1)%R
                  ltac:(simpl; lra) ltac:(simpl; lra) ltac:(simpl; lra)
                  (proj1 sample_colours_inUnit)
                  (proj1 (proj2 sample_colours_inUnit))
                  (proj2 (proj2 sample_colours_inUnit)))).
Defined.

(** ** Where the viewport lands *)

(** X10: in exact arithmetic, with the identity matrix and a view size with
    positive components, every pixel position inside the viewport gets a
    clip position with x and y in [-1,1], z = 0 and w = 1, and x (y) is 0
    exactly on the vertical (horizontal) centre line of the viewport. *)
Theorem viewport_maps_into_clip_square :
  forall (uniforms : VertexUniformBlock R) (pos tcoord : vec2 R),
    matrix uniforms = ExactSample.identity4 ->
    (0 < x2 (viewSize uniforms))%R -> (0 < y2 (viewSize uniforms))%R ->
    (0 <= x2 pos <= x2 (viewSize uniforms))%R ->
    (0 <= y2 pos <= y2 (viewSize uniforms))%R ->
    let p := VertexShader.gl_Position (VertexShader.main uniforms pos tcoord) in
    (-1 <= x4 p <= 1)%R /\ (-1 <= y4 p <= 1)%R /\ z4 p = 0%R /\ w4 p = 1%R /\
    (x4 p = 0%R <-> (2 * x2 pos)%R = x2 (viewSize uniforms)) /\
    (y4 p = 0%R <-> (2 * y2 pos)%R = y2 (viewSize uniforms)).
Proof.
  intros uniforms pos tcoord Hmat Hvx Hvy Hx Hy.
  unfold VertexShader.main. cbv zeta. cbn [VertexShader.gl_Position].
  rewrite Hmat, mat4_mul_identity. exact_ops.
  set (vx := x2 (viewSize uniforms)) in *. set (vy := y2 (viewSize uniforms)) in *.
  set (tx := (2 * x2 pos / vx)%R). set (ty := (2 * y2 pos / vy)%R).
  assert (Htx : (tx * vx = 2 * x2 pos)%R) by (unfold tx; field; lra).
  assert (Hty : (ty * vy = 2 * y2 pos)%R) by (unfold ty; field; lra).
  assert (Htx2 : (0 <= tx <= 2)%R) by (split; nra).
  assert (Hty2 : (0 <= ty <= 2)%R) by (split; nra).
  repeat split; try lra; intros; nra.
Qed.

Lemma viewport_maps_into_clip_square_witness :
  let p := VertexShader.gl_Position
             (VertexShader.main ExactSample.viewport (Vec2 400 300)%R (Vec2 0 0)%R) in
  (-1 <= x4 p <= 1)%R /\ (-1 <= y4 p <= 1)%R /\ z4 p = 0%R /\ w4 p = 1%R /\
  (x4 p = 0%R <-> (2 * 400)%R = 800%R) /\
  (y4 p = 0%R <-> (2 * 300)%R = 600%R).
Proof.
  apply (viewport_maps_into_clip_square ExactSample.viewport
           (Vec2 400 300)%R (Vec2 0 0)%R eq_refl
           ltac:(simpl; lra) ltac:(simpl; lra) ltac:(simpl; lra) ltac:(simpl; lra)).
Defined.

(** * Loading the demo data *)

Module LoadDemoDataFacts.
Import LoadDemoData.

Section Facts.
Local Open Scope Z_scope.
Variable platform : Platform.

Lemma indices_S (i : Z) (n : nat) : indices i (S n) = i :: indices (i + 1) n.
Proof.
  unfold indices. cbn [seq map]. f_equal; [lia|].
  rewrite <- seq_shift, map_map. apply map_ext. intros j. lia.
Qed.

Lemma loadImages_step (count : nat) (i : Z) (s : St) :
  0 <= i -> List.length (calls s) = Z.to_nat i ->
  loadImages platform (S count) i s
  = let s1 :=
      {| data := with_images (data s)
                   (store (images (data s)) (Z.to_nat i) (imageHandle platform i));
         calls := calls s ++ [imageCall platform i] |} in
    if imageHandle platform i =? 0 then (s1, inr (-1))
    else loadImages platform count (i + 1) s1.
Proof.
  intros Hi Hlen. cbn [loadImages]. unfold bind, createImage, set_image, get, put, bind.
  cbn [data calls]. rewrite Hlen.
  fold (imageFile i). unfold getImageFullPath.
  fold (imageHandle platform i). fold (imageCall platform i).
  unfold with_images. destruct (data s); cbn.
  destruct (imageHandle platform i =? 0); reflexivity.
Qed.

Lemma loadImages_all_ok (count : nat) : forall (i : Z) (s : St),
  0 <= i -> List.length (calls s) = Z.to_nat i ->
  (forall k, i <= k < i + Z.of_nat count -> imageHandle platform k <> 0) ->
  loadImages platform count i s
  = ({| data := with_images (data s) (storeAll platform (images (data s)) (indices i count));
        calls := calls s ++ map (imageCall platform) (indices i count) |}, inl tt).
Proof.
  induction count as [|count IH]; intros i s Hi Hlen Hok.
  - cbn. unfold ret, with_images. rewrite app_nil_r. destruct s as [[] ?]; reflexivity.
  - rewrite loadImages_step by assumption. cbv zeta.
    assert (Hh : imageHandle platform i <> 0) by (apply Hok; lia).
    apply Z.eqb_neq in Hh. rewrite Hh.
    rewrite IH.
    + rewrite indices_S. cbn [data calls map fold_left storeAll with_images images
                              fontNormal fontBold fontIcons fontEmoji].
      unfold storeAll. cbn [fold_left]. rewrite <- app_assoc. reflexivity.
    + lia.
    + cbn [calls]. rewrite length_app, Hlen. cbn. lia.
    + intros k Hk. apply Hok. lia.
Qed.

Lemma loadImages_first_bad (count : nat) : forall (i : Z) (s : St) (m : nat),
  0 <= i -> List.length (calls s) = Z.to_nat i ->
  (m < count)%nat ->
  (forall k, i <= k < i + Z.of_nat m -> imageHandle platform k <> 0) ->
  imageHandle platform (i + Z.of_nat m) = 0 ->
  loadImages platform count i s
  = ({| data := with_images (data s) (storeAll platform (images (data s)) (indices i (S m)));
        calls := calls s ++ map (imageCall platform) (indices i (S m)) |}, inr (-1)).
Proof.
  induction count as [|count IH]; intros i s m Hi Hlen Hm Hok Hbad; [lia|].
  rewrite loadImages_step by assumption. cbv zeta.
  destruct m as [|m].
  - replace (i + Z.of_nat 0) with i in Hbad by lia.
    assert (E : (imageHandle platform i =? 0) = true) by (rewrite Hbad; reflexivity).
    rewrite E.
    unfold indices, storeAll. cbn [seq map fold_left].
    replace (i + Z.of_nat 0) with i by lia. reflexivity.
  - assert (Hh : imageHandle platform i <> 0) by (apply Hok; lia).
    apply Z.eqb_neq in Hh. rewrite Hh.
    rewrite (IH (i + 1) _ m).
    + rewrite (indices_S i (S m)).
      cbn [data calls map with_images images fontNormal fontBold fontIcons fontEmoji].
      unfold storeAll. cbn [fold_left]. rewrite <- app_assoc. reflexivity.
    + lia.
    + cbn [calls]. rewrite length_app, Hlen. cbn. lia.
    + lia.
    + intros k Hk. apply Hok. lia.
    + replace (i + 1 + Z.of_nat m) with (i + Z.of_nat (S m)) by lia. exact Hbad.
Qed.

Lemma first_bad_or_all_ok (n : nat) :
  (forall k, 0 <= k < Z.of_nat n -> imageHandle platform k <> 0) \/
  (exists m, (m < n)%nat /\
             (forall k, 0 <= k < Z.of_nat m -> imageHandle platform k <> 0) /\
             imageHandle platform (Z.of_nat m) = 0).
Proof.
  induction n as [|n [IH | (m & Hm & Hok & Hbad)]].
  - left. intros k Hk. lia.
  - destruct (Z.eq_dec (imageHandle platform (Z.of_nat n)) 0) as [Hz | Hnz].
    + right. exists n. split; [lia|]. split; [exact IH | exact Hz].
    + left. intros k Hk.
      destruct (Z.eq_dec k (Z.of_nat n)) as [-> | Hne]; [exact Hnz|].
      apply IH. lia.
  - right. exists m. split; [lia|]. split; assumption.
Qed.

Lemma body_images_ok (d : DemoData) :
  imagesLoad platform ->
  loadDemoDataBody platform {| data := d; calls := [] |}
  = let s := afterImages platform d in
    let withFonts (i n b e : Z) : DemoData :=
      {| fontNormal := n; fontBold := b; fontIcons := i; fontEmoji := e;
         images := images (data s) |} in
    if (iconsHandle platform) =? -1 then
      ({| data := withFonts (iconsHandle platform) (fontNormal d) (fontBold d) (fontEmoji d);
          calls := calls s ++ firstn 1 (fontCalls platform) |}, inr (-1))
    else if (normalHandle platform) =? -1 then
      ({| data := withFonts (iconsHandle platform) (normalHandle platform)
                            (fontBold d) (fontEmoji d);
          calls := calls s ++ firstn 2 (fontCalls platform) |}, inr (-1))
    else if (boldHandle platform) =? -1 then
      ({| data := withFonts (iconsHandle platform) (normalHandle platform)
                            (boldHandle platform) (fontEmoji d);
          calls := calls s ++ firstn 3 (fontCalls platform) |}, inr (-1))
    else if (emojiHandle platform) =? -1 then
      ({| data := withFonts (iconsHandle platform) (normalHandle platform)
                            (boldHandle platform) (emojiHandle platform);
          calls := calls s ++ (fontCalls platform) |}, inr (-1))
    else
      ({| data := withFonts (iconsHandle platform) (normalHandle platform)
                            (boldHandle platform) (emojiHandle platform);
          calls := calls s ++ (fontCalls platform)
                   ++ [AddFallbackFontId (normalHandle platform) (emojiHandle platform);
                       AddFallbackFontId (boldHandle platform) (emojiHandle platform)] |}, inl 0).
Proof.
  intros Hok. unfold loadDemoDataBody.
  change (Z.to_nat (12 - 0)) with 12%nat.
  unfold bind at 1.
  rewrite (loadImages_all_ok 12 0 {| data := d; calls := [] |}
             ltac:(lia) eq_refl Hok).
  cbn [data calls app]. cbv zeta. fold (afterImages platform d).
  unfold bind, createFont, set_fontIcons, set_fontNormal, set_fontBold, set_fontEmoji,
    get, put, call, ret, returning, bind, getImageFullPath.
  cbn [data calls fontNormal fontBold fontIcons fontEmoji images afterImages with_images].
  change (List.length (map (imageCall platform) (indices 0 12))) with 12%nat.
  fold (iconsHandle platform).
  destruct ((iconsHandle platform) =? -1); [reflexivity|].
  cbn beta. cbn [data calls fontNormal fontBold fontIcons fontEmoji images].
  rewrite !length_app.
  change (List.length (map (imageCall platform) (indices 0 12))) with 12%nat.
  cbn [List.length Nat.add]. fold (normalHandle platform).
  destruct ((normalHandle platform) =? -1); [rewrite <- ?app_assoc; reflexivity|].
  cbn beta. cbn [data calls fontNormal fontBold fontIcons fontEmoji images].
  rewrite !length_app.
  change (List.length (map (imageCall platform) (indices 0 12))) with 12%nat.
  cbn [List.length Nat.add]. fold (boldHandle platform).
  destruct ((boldHandle platform) =? -1); [rewrite <- ?app_assoc; reflexivity|].
  cbn beta. cbn [data calls fontNormal fontBold fontIcons fontEmoji images].
  rewrite !length_app.
  change (List.length (map (imageCall platform) (indices 0 12))) with 12%nat.
  cbn [List.length Nat.add]. fold (emojiHandle platform).
  destruct ((emojiHandle platform) =? -1); [rewrite <- ?app_assoc; reflexivity|].
  cbn beta. cbn [data calls fontNormal fontBold fontIcons fontEmoji images].
  rewrite <- ?app_assoc. reflexivity.
Qed.

Lemma store_length (a : list Z) : forall (i : nat) (v : Z),
  List.length (store a i v) = List.length a.
Proof.
  induction a as [|h a IH]; intros [|i] v; cbn; try reflexivity.
  rewrite IH. reflexivity.
Qed.

Lemma store_nth_other (a : list Z) : forall (i j : nat) (v : Z),
  i <> j -> nth j (store a i v) 0 = nth j a 0.
Proof.
  induction a as [|h a IH]; intros [|i] [|j] v Hij; cbn; try reflexivity;
    try congruence.
  apply IH. congruence.
Qed.

Lemma store_nth_same (a : list Z) : forall (i : nat) (v : Z),
  (i < List.length a)%nat -> nth i (store a i v) 0 = v.
Proof.
  induction a as [|h a IH]; intros [|i] v Hi; cbn in *; try lia; try reflexivity.
  apply IH. lia.
Qed.

Lemma storeAll_later_untouched (n : nat) : forall (a : list Z) (i : Z) (j : nat),
  0 <= i -> (Z.to_nat i + n <= j)%nat ->
  nth j (storeAll platform a (indices i n)) 0 = nth j a 0.
Proof.
  induction n as [|n IH]; intros a i j Hi Hj.
  - reflexivity.
  - rewrite indices_S. unfold storeAll. cbn [fold_left].
    fold (storeAll platform (store a (Z.to_nat i) (imageHandle platform i))
            (indices (i + 1) n)).
    rewrite IH by lia. apply store_nth_other. lia.
Qed.

Lemma storeAll_length (ks : list Z) : forall (a : list Z),
  List.length (storeAll platform a ks) = List.length a.
Proof.
  induction ks as [|k ks IH]; intros a; [reflexivity|].
  unfold storeAll. cbn [fold_left].
  fold (storeAll platform (store a (Z.to_nat k) (imageHandle platform k)) ks).
  rewrite IH. apply store_length.
Qed.

Lemma storeAll_twelve (a : list Z) :
  List.length a = 12%nat ->
  storeAll platform a (indices 0 12) = map (imageHandle platform) (indices 0 12).
Proof.
  intros Hlen.
  do 12 (destruct a as [|? a]; [discriminate Hlen|]).
  destruct a; [|discriminate Hlen]. reflexivity.
Qed.

Lemma loadDemoData_images_fail (c : Z) (d : DemoData) (m : nat) :
  (m < 12)%nat ->
  (forall k, 0 <= k < Z.of_nat m -> imageHandle platform k <> 0) ->
  imageHandle platform (Z.of_nat m) = 0 ->
  loadDemoData platform (Some c) d
  = (-1, {| data := with_images d (storeAll platform (images d) (indices 0 (S m)));
            calls := map (imageCall platform) (indices 0 (S m)) |}).
Proof.
  intros Hm Hok Hbad. unfold loadDemoData, loadDemoDataBody.
  change (Z.to_nat (12 - 0)) with 12%nat. unfold bind at 1.
  rewrite (loadImages_first_bad 12 0 {| data := d; calls := [] |} m
             ltac:(lia) eq_refl Hm Hok Hbad).
  reflexivity.
Qed.

Lemma loadDemoData_images_ok (c : Z) (d : DemoData) :
  imagesLoad platform ->
  loadDemoData platform (Some c) d
  = match loadDemoDataBody platform {| data := d; calls := [] |} with
    | (s, inl r) => (r, s)
    | (s, inr r) => (r, s)
    end.
Proof. reflexivity. Qed.

(** X11: [loadDemoData] returns 0 exactly when the context pointer is not
    null, each of the twelve images loads (a non-zero handle) and each of
    the four fonts loads (a handle other than -1); in every other case it
    returns -1. *)
Theorem loadDemoData_succeeds_iff :
  forall (vg : option Z) (d : DemoData),
    (fst (loadDemoData platform vg d) = 0 <->
     vg <> None /\ imagesLoad platform /\ fontsLoad platform) /\
    (fst (loadDemoData platform vg d) = 0 \/ fst (loadDemoData platform vg d) = -1).
Proof.
  intros [c|] d.
  2:{ split; [|right; reflexivity]. cbn. split; [discriminate|].
      intros [Hvg _]. contradiction. }
  destruct (first_bad_or_all_ok 12) as [Hok | (m & Hm & Hok & Hbad)].
  - unfold loadDemoData. rewrite (body_images_ok d Hok). cbv zeta.
    unfold fontsLoad.
    destruct (iconsHandle platform =? -1) eqn:E1;
      [apply Z.eqb_eq in E1; cbn [fst];
       split; [split; [discriminate | tauto] | right; reflexivity]|].
    destruct (normalHandle platform =? -1) eqn:E2;
      [apply Z.eqb_eq in E2; cbn [fst];
       split; [split; [discriminate | tauto] | right; reflexivity]|].
    destruct (boldHandle platform =? -1) eqn:E3;
      [apply Z.eqb_eq in E3; cbn [fst];
       split; [split; [discriminate | tauto] | right; reflexivity]|].
    destruct (emojiHandle platform =? -1) eqn:E4;
      [apply Z.eqb_eq in E4; cbn [fst];
       split; [split; [discriminate | tauto] | right; reflexivity]|].
    apply Z.eqb_neq in E1, E2, E3, E4. cbn [fst].
    split; [|left; reflexivity].
    split; [intros _|reflexivity].
    split; [discriminate|]. split; [exact Hok|]. repeat split; assumption.
  - rewrite (loadDemoData_images_fail c d m Hm Hok Hbad). cbn [fst].
    split; [|right; reflexivity].
    split; [discriminate|]. intros (_ & Himgs & _).
    exfalso. apply (Himgs (Z.of_nat m)); [lia | exact Hbad].
Qed.

Lemma indices_snoc (i : Z) (n : nat) :
  indices i (S n) = indices i n ++ [i + Z.of_nat n].
Proof.
  unfold indices. rewrite seq_S, map_app. reflexivity.
Qed.

Lemma storeAll_last (a : list Z) (m : nat) :
  (m < List.length a)%nat ->
  nth m (storeAll platform a (indices 0 (S m))) 0 = imageHandle platform (Z.of_nat m).
Proof.
  intros Hm. rewrite indices_snoc. unfold storeAll. rewrite fold_left_app.
  cbn [fold_left]. fold (storeAll platform a (indices 0 m)).
  replace (Z.to_nat (0 + Z.of_nat m)) with m by lia.
  replace (0 + Z.of_nat m) with (Z.of_nat m) by lia.
  apply store_nth_same. rewrite storeAll_length. exact Hm.
Qed.

Lemma no_fallback_in_images (ks : list Z) :
  existsb isFallback (map (imageCall platform) ks) = false.
Proof. induction ks as [|k ks IH]; [reflexivity | exact IH]. Qed.

Lemma no_font_in_images (ks : list Z) :
  existsb isCreateFont (map (imageCall platform) ks) = false.
Proof. induction ks as [|k ks IH]; [reflexivity | exact IH]. Qed.

(** X12: when everything loads, [loadDemoData] leaves in [data] the twelve
    image handles in order and the four font handles, and has made exactly
    these calls, in this order: one image creation for each of image1.jpg
    to image12.jpg (the 128-byte name buffer never truncates), the four
    font creations, and the two fallback registrations of the emoji font
    for the normal and the bold font. *)
Theorem loadDemoData_success_state :
  forall (c : Z) (d : DemoData),
    imagesLoad platform -> fontsLoad platform -> List.length (images d) = 12%nat ->
    loadDemoData platform (Some c) d
    = (0,
       {| data :=
            {| fontNormal := normalHandle platform; fontBold := boldHandle platform;
               fontIcons := iconsHandle platform; fontEmoji := emojiHandle platform;
               images := map (imageHandle platform) (indices 0 12) |};
          calls :=
            map (fun name => CreateImage (fullPath platform name) 0)
                [ "image1.jpg"; "image2.jpg"; "image3.jpg"; "image4.jpg";
                  "image5.jpg"; "image6.jpg"; "image7.jpg"; "image8.jpg";
                  "image9.jpg"; "image10.jpg"; "image11.jpg"; "image12.jpg" ]%string
            ++ fontCalls platform
            ++ [ AddFallbackFontId (normalHandle platform) (emojiHandle platform);
                 AddFallbackFontId (boldHandle platform) (emojiHandle platform) ] |}).
Proof.
  intros c d Hok (H1 & H2 & H3 & H4) Hlen.
  unfold loadDemoData. rewrite (body_images_ok d Hok). cbv zeta.
  apply Z.eqb_neq in H1, H2, H3, H4. rewrite H1, H2, H3, H4.
  cbn [afterImages data calls with_images images].
  rewrite (storeAll_twelve (images d) Hlen). reflexivity.
Qed.

(** X13: when image number m (counting from 0) is the first that fails to
    load, [loadDemoData] returns -1 having asked for the images 0 to m and
    nothing else; images[m] holds the failed handle 0, the later slots of
    images and the four font fields of [data] are as they were. *)
Theorem loadDemoData_stops_at_first_bad_image :
  forall (c : Z) (d : DemoData) (m : nat),
    (m < 12)%nat ->
    (forall k, 0 <= k < Z.of_nat m -> imageHandle platform k <> 0) ->
    imageHandle platform (Z.of_nat m) = 0 ->
    let r := loadDemoData platform (Some c) d in
    fst r = -1 /\
    calls (snd r) = map (imageCall platform) (indices 0 (S m)) /\
    fontNormal (data (snd r)) = fontNormal d /\
    fontBold (data (snd r)) = fontBold d /\
    fontIcons (data (snd r)) = fontIcons d /\
    fontEmoji (data (snd r)) = fontEmoji d /\
    ((m < List.length (images d))%nat -> nth m (images (data (snd r))) 0 = 0) /\
    (forall j, (m < j)%nat -> nth j (images (data (snd r))) 0 = nth j (images d) 0).
Proof.
  intros c d m Hm Hok Hbad. cbv zeta.
  rewrite (loadDemoData_images_fail c d m Hm Hok Hbad).
  cbn [fst snd data calls with_images images fontNormal fontBold fontIcons fontEmoji].
  repeat (split; [reflexivity|]).
  split.
  - intros Hlen. rewrite storeAll_last by exact Hlen. exact Hbad.
  - intros j Hj. apply storeAll_later_untouched; lia.
Qed.

(** X14: with a null context [loadDemoData] touches nothing; whenever it
    fails it has registered no fallback font; and it asks for a font only
    after all twelve images have loaded. *)
Theorem loadDemoData_failure_registers_no_fallback :
  forall (vg : option Z) (d : DemoData),
    let r := loadDemoData platform vg d in
    (vg = None -> r = (-1, {| data := d; calls := [] |})) /\
    (fst r <> 0 -> existsb isFallback (calls (snd r)) = false) /\
    (existsb isCreateFont (calls (snd r)) = true -> imagesLoad platform).
Proof.
  intros [c|] d; cbv zeta.
  2:{ split; [reflexivity|]. split; [reflexivity|]. cbn. discriminate. }
  split; [discriminate|].
  destruct (first_bad_or_all_ok 12) as [Hok | (m & Hm & Hok & Hbad)].
  - split; [|intros _; exact Hok].
    unfold loadDemoData. rewrite (body_images_ok d Hok). cbv zeta.
    destruct (iconsHandle platform =? -1);
      [intros _; cbn [snd calls afterImages]; rewrite existsb_app, no_fallback_in_images;
       reflexivity|].
    destruct (normalHandle platform =? -1);
      [intros _; cbn [snd calls afterImages]; rewrite existsb_app, no_fallback_in_images;
       reflexivity|].
    destruct (boldHandle platform =? -1);
      [intros _; cbn [snd calls afterImages]; rewrite existsb_app, no_fallback_in_images;
       reflexivity|].
    destruct (emojiHandle platform =? -1);
      [intros _; cbn [snd calls afterImages]; rewrite existsb_app, no_fallback_in_images;
       reflexivity|].
    cbn [fst]. intros Hne. contradiction Hne. reflexivity.
  - rewrite (loadDemoData_images_fail c d m Hm Hok Hbad).
    cbn [fst snd calls]. split.
    + intros _. apply no_fallback_in_images.
    + rewrite no_font_in_images. discriminate.
Qed.
End Facts.

Lemma sample_images_load (badCall : nat) (n : nat) :
  (n <= badCall)%nat ->
  forall k : Z, (0 <= k < Z.of_nat n)%Z -> imageHandle (samplePlatform badCall) k <> 0%Z.
Proof.
  intros Hn k Hk. unfold imageHandle, samplePlatform. cbn [nvgCreateImage].
  destruct (Z.to_nat k =? badCall)%nat eqn:E; [apply Nat.eqb_eq in E; lia | lia].
Qed.

Lemma sample_fonts_load : fontsLoad (samplePlatform 100).
Proof. unfold fontsLoad. repeat split; discriminate. Qed.

Lemma loadDemoData_success_state_witness :
  fst (loadDemoData (samplePlatform 100) (Some 1%Z) emptyData) = 0%Z.
Proof.
  exact (f_equal fst
           (loadDemoData_success_state (samplePlatform 100) 1%Z emptyData
              (sample_images_load 100 12 ltac:(lia)) sample_fonts_load eq_refl)).
Defined.

Lemma loadDemoData_stops_at_first_bad_image_witness :
  fst (loadDemoData (samplePlatform 2) (Some 1%Z) emptyData) = (-1)%Z.
Proof.
  exact (proj1 (loadDemoData_stops_at_first_bad_image (samplePlatform 2) 1%Z emptyData
                  2%nat ltac:(lia) (sample_images_load 2 2 ltac:(lia)) eq_refl)).
Defined.

Lemma loadDemoData_failure_registers_no_fallback_witness :
  loadDemoData (samplePlatform 100) None emptyData
  = ((-1)%Z, {| data := emptyData; calls := [] |}).
Proof.
  exact (proj1 (loadDemoData_failure_registers_no_fallback (samplePlatform 100)
                  None emptyData) eq_refl).
Defined.

(** On the sample platform whose third call fails, the first two images get
    their handles and the third slot the failure. *)
Example loadDemoData_third_image_missing :
  loadDemoData (samplePlatform 2) (Some 1%Z) emptyData
  = ((-1)%Z,
     {| data := {| fontNormal := -1; fontBold := -1; fontIcons := -1; fontEmoji := -1;
                   images := [1; 2; 0; 0; 0; 0; 0; 0; 0; 0; 0; 0]%Z |};
        calls := [ CreateImage "/assets/image1.jpg" 0;
                   CreateImage "/assets/image2.jpg" 0;
                   CreateImage "/assets/image3.jpg" 0 ] |}).
Proof. vm_compute. reflexivity. Qed.
End LoadDemoDataFacts.

(** * The render loop *)

Module RenderLoopFacts.
Import RenderLoop.

Section Facts.
Context {F : Type} `{GLFloat F}.

Lemma phaseAfter_app (l1 l2 : list (DeviceCall F)) (p q : Phase) :
  phaseAfter p l1 = Some q -> phaseAfter p (l1 ++ l2) = phaseAfter q l2.
Proof.
  revert p. induction l1 as [|c l1 IH]; intros p Hq; cbn in *.
  - injection Hq as ->. reflexivity.
  - destruct (step p c) as [p'|]; [apply IH; exact Hq | discriminate Hq].
Qed.

Lemma update_phase (b : bool) (s : NanovgSession.State) (c : NanovgSession.Clock F)
    (t : SurfaceTextures) :
  phaseAfter Idle (snd (update b s c t)) = Some Idle.
Proof. destruct b; reflexivity. Qed.

Lemma frames_app (l1 l2 : list (DeviceCall F)) :
  frames (l1 ++ l2) = frames l1 ++ frames l2.
Proof.
  induction l1 as [|c l1 IH]; [reflexivity|].
  cbn [app frames]. destruct c as [| | | |[]| | | |]; cbn; rewrite ?IH; reflexivity.
Qed.

Lemma demoTimes_app (l1 l2 : list (DeviceCall F)) :
  demoTimes (l1 ++ l2) = demoTimes l1 ++ demoTimes l2.
Proof.
  induction l1 as [|c l1 IH]; [reflexivity|].
  cbn [app demoTimes]. destruct c as [| | | |[]| | | |]; cbn; rewrite ?IH; reflexivity.
Qed.

Lemma wrap32_range (z : Z) :
  (- 2 ^ 31 <= NanovgSession.wrap32 z < 2 ^ 31)%Z.
Proof.
  unfold NanovgSession.wrap32.
  pose proof (Z.mod_pos_bound (z + 2 ^ 31) (2 ^ 32) ltac:(lia)). lia.
Qed.

Lemma wrap32_small (z : Z) :
  (- 2 ^ 31 <= z < 2 ^ 31)%Z -> NanovgSession.wrap32 z = z.
Proof.
  intros Hz. unfold NanovgSession.wrap32. rewrite Z.mod_small by lia. lia.
Qed.

Lemma wrap32_add (z k : Z) :
  NanovgSession.wrap32 (NanovgSession.wrap32 z + k) = NanovgSession.wrap32 (z + k).
Proof.
  unfold NanovgSession.wrap32.
  replace ((z + 2 ^ 31) mod 2 ^ 32 - 2 ^ 31 + k + 2 ^ 31)%Z
    with ((z + 2 ^ 31) mod 2 ^ 32 + k)%Z by lia.
  rewrite Zplus_mod_idemp_l. f_equal. f_equal. lia.
Qed.

Lemma run_phase (turns : list (Turn F)) : forall s : NanovgSession.State,
  phaseAfter Idle (snd (run s turns)) = Some Idle.
Proof.
  induction turns as [|t turns IH]; intros s; [reflexivity|].
  cbn [run fst snd].
  rewrite (phaseAfter_app _ _ Idle Idle); [apply IH | apply update_phase].
Qed.

Lemma run_times (turns : list (Turn F)) : forall s : NanovgSession.State,
  (- 2 ^ 31 <= NanovgSession.times_ s < 2 ^ 31)%Z ->
  NanovgSession.times_ (fst (run s turns))
  = NanovgSession.wrap32 (NanovgSession.times_ s + Z.of_nat (List.length turns)).
Proof.
  induction turns as [|t turns IH]; intros s Hs.
  - cbn [run fst List.length]. rewrite wrap32_small; lia.
  - cbn [run fst snd]. rewrite IH.
    + unfold update. cbn [fst NanovgSession.drawNanovg NanovgSession.times_
        pointerMoved List.length]. rewrite wrap32_add. f_equal. lia.
    + unfold update. cbn [fst NanovgSession.drawNanovg NanovgSession.times_
        pointerMoved]. apply wrap32_range.
Qed.

Lemma run_presents (turns : list (Turn F)) : forall s : NanovgSession.State,
  List.length (filter isPresent (snd (run s turns)))
  = List.length (filter shouldPresent turns).
Proof.
  induction turns as [|t turns IH]; intros s; [reflexivity|].
  cbn [run fst snd]. rewrite filter_app, length_app, IH. cbn [filter].
  unfold update. cbn [snd]. destruct (shouldPresent t); reflexivity.
Qed.

(** X15: over any number of turns of the shell's loop, whatever the
    operations of [float] are, the calls of [update] keep to the protocol:
    NanoVG draws only inside a frame, a frame is opened and closed inside
    one render command encoder, the encoder is ended before the command
    buffer is presented or submitted, and after each turn nothing is left
    open; the frame counter, a 32-bit int, has grown by one per turn modulo
    2^32 (so by exactly the number of turns while it stays below 2^31), and
    there is one present for each turn that asks for it. *)
Theorem run_follows_protocol :
  forall (turns : list (Turn F)) (s : NanovgSession.State),
    (- 2 ^ 31 <= NanovgSession.times_ s < 2 ^ 31)%Z ->
    phaseAfter Idle (snd (run s turns)) = Some Idle /\
    NanovgSession.times_ (fst (run s turns))
    = NanovgSession.wrap32 (NanovgSession.times_ s + Z.of_nat (List.length turns)) /\
    ((NanovgSession.times_ s + Z.of_nat (List.length turns) < 2 ^ 31)%Z ->
     NanovgSession.times_ (fst (run s turns))
     = (NanovgSession.times_ s + Z.of_nat (List.length turns))%Z) /\
    List.length (filter isPresent (snd (run s turns)))
    = List.length (filter shouldPresent turns).
Proof.
  intros turns s Hs.
  split; [apply run_phase|].
  split; [apply run_times; exact Hs|].
  split; [|apply run_presents].
  intros Hn. rewrite run_times by exact Hs. apply wrap32_small. lia.
Qed.

(** X16: over any number of turns, whatever the operations of [float] are,
    [update] opens exactly one NanoVG frame per turn, with pixel ratio 2 and
    the colour surface's width and height divided by 2, and the k-th turn
    passes the animation time c / 60 to the demo, where c is the 32-bit
    frame counter after k increments, that is times_ + k wrapped around. *)
Theorem run_opens_one_half_size_frame_per_turn :
  forall (turns : list (Turn F)) (s : NanovgSession.State),
    frames (snd (run s turns))
    = map (fun t => ((fofZ (width (color (surface t))) / fofZ 2)%glsl,
                     (fofZ (height (color (surface t))) / fofZ 2)%glsl,
                     fofZ 2)) turns /\
    demoTimes (snd (run s turns))
    = map (fun k => (fofZ (NanovgSession.wrap32 (NanovgSession.times_ s + Z.of_nat k))
                     / fofZ 60)%glsl)
          (seq 1 (List.length turns)).
Proof.
  induction turns as [|t turns IH]; intros s.
  - split; reflexivity.
  - cbn [run fst snd].
    set (r1 := update (shouldPresent t) (pointerMoved s (pointerX t) (pointerY t))
                 (clock t) (surface t)).
    destruct (IH (fst r1)) as (Hframes & Htimes).
    rewrite frames_app, demoTimes_app, Hframes, Htimes.
    split.
    + unfold r1, update. cbn [snd]. destruct (shouldPresent t); reflexivity.
    + cbn [List.length seq map].
      replace (demoTimes (snd r1))
        with [(fofZ (NanovgSession.wrap32 (NanovgSession.times_ s + 1)) / fofZ 60)%glsl]
        by (unfold r1, update; cbn [snd]; destruct (shouldPresent t); reflexivity).
      cbn [app]. f_equal.
      rewrite <- (seq_shift (List.length turns) 1), map_map. apply map_ext. intros k.
      unfold r1, update. cbn [fst NanovgSession.drawNanovg NanovgSession.times_
        pointerMoved]. rewrite wrap32_add. f_equal. f_equal. f_equal. lia.
Qed.
End Facts.

Lemma run_follows_protocol_witness :
  NanovgSession.times_ (fst (run lastCount [sampleTurn true; sampleTurn false]))
  = NanovgSession.wrap32 (2147483647 + 2).
Proof.
  exact (proj1 (proj2 (run_follows_protocol [sampleTurn true; sampleTurn false]
                         lastCount ltac:(cbn; lia)))).
Defined.

(** At the largest int the counter wraps: the next frame's animation time
    is -2^31 / 60, in single precision -35791396. *)
Example demo_time_after_wrap_binary32 :
  NanovgSession.times_ (fst (run lastCount [sampleTurn true])) = (-2147483648)%Z /\
  demoTimes (snd (run lastCount [sampleTurn true])) = [ Sample.b32 (-35791396) ].
Proof. vm_compute. split; reflexivity. Qed.

(** Two turns in single precision on a 1920 x 1080 surface, the second one
    not presenting. *)
Example two_turns_binary32 :
  let clock := {| NanovgSession.start := Sample.b32 0; NanovgSession.finish := Sample.b32 0;
                  NanovgSession.deltaSeconds := Sample.b32 0 |} in
  let surface := {| color := {| handle := 7; width := 1920; height := 1080 |};
                    depth := {| handle := 8; width := 1920; height := 1080 |} |} in
  let turn (b : bool) := {| pointerX := 3; pointerY := 4; shouldPresent := b;
                            clock := clock; surface := surface |} in
  let log := snd (run {| NanovgSession.times_ := 0; NanovgSession.mouseX := 0;
                         NanovgSession.mouseY := 0 |} [turn true; turn false]) in
  frames log = [ (Sample.b32 960, Sample.b32 540, Sample.b32 2);
                 (Sample.b32 960, Sample.b32 540, Sample.b32 2) ] /\
  filter isPresent log = [ present 7 ] /\
  phaseAfter Idle log = Some Idle.
Proof. vm_compute. repeat split. Qed.
End RenderLoopFacts.
